(** * The selection counter of the history page (static/js/main.js)

    The script is one [DOMContentLoaded] handler.  It looks up the history
    form, takes a snapshot of its [log_ids] checkboxes, finds or creates the
    counter element, writes the counter text once and registers [change]
    listeners.  This file embeds the handler and its two closures over a small
    model of the DOM, and proves the properties of the specification about
    them. *)

From stdpp Require Import gmap strings list fin_maps.
From Stdlib Require Import Ascii DecimalString DecimalNat.

(** ** The page: a tree of nodes, a store of element objects *)

(** An element object is known to scripts by its identity. *)
Definition handle := nat.

(** A JavaScript reference to an element: [None] is [null]. *)
Definition ref := option handle.

Unset Elimination Schemes.
Inductive node : Type :=
| Elem (h : handle) (kids : list node)
| Text (s : string).
Set Elimination Schemes.

(** The properties of an element object that the script reads or writes.
    [attrs] holds the content attributes ([id], [class], [type], [name]);
    [checked] is the checkedness of an input, and is [false] on an element
    that has none (reading [.checked] there gives [undefined], which is
    falsy); [style] is the inline style declaration.  Tag names and attribute
    values are taken as the parser normalises them (lower case). *)
Record element := Element {
  tagName : string;
  attrs : list (string * string);
  checked : bool;
  style : list (string * string)
}.

(** The closures of the script capture three variables. *)
Record env := Env {
  checkboxes : list handle;
  selectAll : ref;
  counter : ref
}.

(** The two functions registered as [change] listeners, each with the
    variables it closes over. *)
Inductive listener :=
| UpdateCounter (e : env)
| SelectAllChange (e : env).

(** A write performed on the page. *)
Inductive mutation :=
| MCreate (h : handle) (tag : string)
| MAttr (h : handle) (k v : string)
| MStyle (h : handle) (k v : string)
| MAppend (parent child : handle)
| MText (h : handle) (s : string)
| MChecked (h : handle) (b : bool)
| MListen (h : handle) (l : listener).

(** [document] lists the children of the document node; [props] maps every
    live element object to its properties; [listeners] gives the [change]
    listeners of each element in registration order; [mutations] records the
    writes done so far, oldest first. *)
Record page := Page {
  document : list node;
  props : gmap handle element;
  listeners : gmap handle (list listener);
  mutations : list mutation
}.

#[global] Instance env_eq_dec : EqDecision env.
Proof. solve_decision. Defined.
#[global] Instance listener_eq_dec : EqDecision listener.
Proof. solve_decision. Defined.

(** ** Tree traversal *)

(** All subtrees of a node in document (pre-)order, the node itself first. *)
Fixpoint subtrees (n : node) : list node :=
  match n with
  | Elem h kids => n :: flat_map subtrees kids
  | Text _ => [n]
  end.

Definition root (n : node) : option handle :=
  match n with Elem h _ => Some h | Text _ => None end.

Definition children (n : node) : list node :=
  match n with Elem _ kids => kids | Text _ => [] end.

(** The element handles of a forest in document order. *)
Definition elements_of (ns : list node) : list handle :=
  omap root (flat_map subtrees ns).

(** The first subtree of the forest whose root is the element [h]. *)
Definition find_node (h : handle) (ns : list node) : option node :=
  head (filter (λ n, root n = Some h) (flat_map subtrees ns)).

(** The elements strictly below [h]. *)
Definition descendants (h : handle) (ns : list node) : list handle :=
  match find_node h ns with
  | Some n => elements_of (children n)
  | None => []
  end.

(** The text of a node: the concatenation of its text descendants. *)
Fixpoint text_of (n : node) : string :=
  match n with
  | Elem _ kids => String.concat "" (map text_of kids)
  | Text s => s
  end.

(** Rewrite the child list of the element [h] (wherever it is found, outermost
    occurrence first). *)
Fixpoint with_children (h : handle) (f : list node → list node) (n : node) : node :=
  match n with
  | Elem h' kids =>
      if decide (h' = h) then Elem h' (f kids)
      else Elem h' (map (with_children h f) kids)
  | Text s => Text s
  end.

(** Take the element [h] and its subtree out of a forest. *)
Fixpoint remove_node (h : handle) (n : node) : list node :=
  match n with
  | Elem h' kids =>
      if decide (h' = h) then []
      else [Elem h' (flat_map (remove_node h) kids)]
  | Text s => [Text s]
  end.

(** The proper ancestors of [h] inside [n], nearest first. *)
Fixpoint ancestors_in (h : handle) (n : node) : option (list handle) :=
  match n with
  | Elem h' kids =>
      if decide (h' = h) then Some []
      else
        (fix go (ks : list node) : option (list handle) :=
           match ks with
           | [] => None
           | k :: ks' =>
               match ancestors_in h k with
               | Some path => Some (path ++ [h'])
               | None => go ks'
               end
           end) kids
  | Text _ => None
  end.

Fixpoint ancestors (h : handle) (ns : list node) : list handle :=
  match ns with
  | [] => []
  | n :: ns' =>
      match ancestors_in h n with
      | Some path => path
      | None => ancestors h ns'
      end
  end.

(** ** Selectors *)

Definition is_space (c : ascii) : bool :=
  bool_decide (c ∈ [" "%char; "009"%char; "010"%char; "012"%char; "013"%char]).

(** Split a [class] attribute into its tokens. *)
Fixpoint tokens_go (cur : string) (s : string) : list string :=
  match s with
  | EmptyString => if bool_decide (cur = "") then [] else [cur]
  | String c s' =>
      if is_space c
      then (if bool_decide (cur = "") then tokens_go "" s' else cur :: tokens_go "" s')
      else tokens_go (cur +:+ String c EmptyString) s'
  end.

Definition tokens (s : string) : list string := tokens_go "" s.

Fixpoint assoc (k : string) (l : list (string * string)) : option string :=
  match l with
  | [] => None
  | (k', v) :: l' => if bool_decide (k' = k) then Some v else assoc k l'
  end.

Fixpoint assoc_set (k v : string) (l : list (string * string)) : list (string * string) :=
  match l with
  | [] => [(k, v)]
  | (k', v') :: l' =>
      if bool_decide (k' = k) then (k, v) :: l' else (k', v') :: assoc_set k v l'
  end.

Definition getAttribute (e : element) (k : string) : option string := assoc k (attrs e).

Definition classList (e : element) : list string :=
  tokens (default "" (getAttribute e "class")).

(** The simple selectors the script uses: [input], [.c], [#i], [[k="v"]]. *)
Inductive simple :=
| Tag (t : string)
| Class (c : string)
| Id (i : string)
| AttrEq (k v : string).

(** A compound selector holds when each of its simple selectors does. *)
Definition selector := list simple.

Definition matches_simple (e : element) (s : simple) : bool :=
  match s with
  | Tag t => bool_decide (tagName e = t)
  | Class c => bool_decide (c ∈ classList e)
  | Id i => bool_decide (getAttribute e "id" = Some i)
  | AttrEq k v => bool_decide (getAttribute e k = Some v)
  end.

Definition matches (p : page) (sel : selector) (h : handle) : bool :=
  match props p !! h with
  | Some e => forallb (matches_simple e) sel
  | None => false
  end.

(** ** The script monad: a state over the page, with exceptions *)

Inductive outcome (A : Type) : Type :=
| Ok (a : A) (p : page)
| Throw (msg : string).
Arguments Ok {A} a p.
Arguments Throw {A} msg.

Definition JS (A : Type) : Type := page → outcome A.

Definition ret {A} (a : A) : JS A := λ p, Ok a p.

Definition bind {A B} (m : JS A) (k : A → JS B) : JS B :=
  λ p, match m p with
       | Ok a p' => k a p'
       | Throw msg => Throw msg
       end.

Notation "'do' x ← m ; k" := (bind m (λ x, k))
  (at level 10, x name, m at level 100, k at level 200, only parsing).
Notation "'run' m ; k" := (bind m (λ _, k))
  (at level 10, m at level 100, k at level 200, only parsing).

(** A property access on [null]. *)
Definition type_error {A} : JS A := λ _, Throw "TypeError".

(** Record a write. *)
Definition log (m : mutation) (p : page) : page :=
  Page (document p) (props p) (listeners p) (mutations p ++ [m]).

(** [l.forEach(f)] and [l.filter(f)] *)
Fixpoint forEach {A} (l : list A) (f : A → JS unit) : JS unit :=
  match l with
  | [] => ret tt
  | x :: l' => run f x; forEach l' f
  end.

Fixpoint array_filter {A} (l : list A) (f : A → JS bool) : JS (list A) :=
  match l with
  | [] => ret []
  | x :: l' =>
      do b ← f x;
      do rest ← array_filter l' f;
      ret (if b then x :: rest else rest)
  end.

(** ** DOM operations *)

(** The elements among [hs] that match, in order, and the first of them. *)
Definition all_matches (p : page) (sel : selector) (hs : list handle) : list handle :=
  filter (λ h, matches p sel h) hs.

Definition first_match (p : page) (sel : selector) (hs : list handle) : ref :=
  head (all_matches p sel hs).

(** [document.querySelector(sel)]: the first matching element of the
    document. *)
Definition document_querySelector (sel : selector) : JS ref :=
  λ p, Ok (first_match p sel (elements_of (document p))) p.

(** [r.querySelector(sel)]: the first matching descendant of [r]. *)
Definition querySelector (r : ref) (sel : selector) : JS ref :=
  match r with
  | None => type_error
  | Some h => λ p, Ok (first_match p sel (descendants h (document p))) p
  end.

(** [Array.from(r.querySelectorAll(sel))]: the matching descendants of [r] in
    document order. *)
Definition querySelectorAll (r : ref) (sel : selector) : JS (list handle) :=
  match r with
  | None => type_error
  | Some h => λ p, Ok (all_matches p sel (descendants h (document p))) p
  end.

Definition blank (tag : string) : element := Element tag [] false [].

(** The identity of the next element object: one that no live element and no
    node of the document has. *)
Definition fresh_handle (p : page) : handle :=
  fresh (dom (props p) ∪ list_to_set (elements_of (document p)) : gset handle).

(** [document.createElement(tag)]: a new element, not yet in the document. *)
Definition createElement (tag : string) : JS ref :=
  λ p, let h := fresh_handle p in
       Ok (Some h)
          (log (MCreate h tag)
               (Page (document p) (<[h := blank tag]> (props p)) (listeners p) (mutations p))).

Definition set_attrs (e : element) (a : list (string * string)) : element :=
  Element (tagName e) a (checked e) (style e).
Definition set_checked_of (e : element) (b : bool) : element :=
  Element (tagName e) (attrs e) b (style e).
Definition set_style_of (e : element) (s : list (string * string)) : element :=
  Element (tagName e) (attrs e) (checked e) s.

Definition alter_props (h : handle) (f : element → element) (p : page) : page :=
  Page (document p) (alter f h (props p)) (listeners p) (mutations p).

(** [r.className = v] *)
Definition set_className (r : ref) (v : string) : JS unit :=
  match r with
  | None => type_error
  | Some h =>
      λ p, Ok tt (log (MAttr h "class" v)
                      (alter_props h (λ e, set_attrs e (assoc_set "class" v (attrs e))) p))
  end.

(** [r.style.k = v] *)
Definition set_style (r : ref) (k v : string) : JS unit :=
  match r with
  | None => type_error
  | Some h =>
      λ p, Ok tt (log (MStyle h k v)
                      (alter_props h (λ e, set_style_of e (assoc_set k v (style e))) p))
  end.

(** [r.checked] *)
Definition is_checked (p : page) (h : handle) : bool :=
  match props p !! h with
  | Some e => checked e
  | None => false
  end.

Definition get_checked (r : ref) : JS bool :=
  match r with
  | None => type_error
  | Some h => λ p, Ok (is_checked p h) p
  end.

(** [r.checked = b] *)
Definition set_checked (r : ref) (b : bool) : JS unit :=
  match r with
  | None => type_error
  | Some h =>
      λ p, Ok tt (log (MChecked h b) (alter_props h (λ e, set_checked_of e b) p))
  end.

Definition with_document (f : list node → list node) (p : page) : page :=
  Page (f (document p)) (props p) (listeners p) (mutations p).

(** [parent.appendChild(child)]: [child], with the subtree it has in the
    document if it is there, leaves its place and becomes the last child of
    [parent].  A parent inside the moved subtree is an error. *)
Definition appendChild (parent child : ref) : JS unit :=
  match parent, child with
  | Some ph, Some ch =>
      λ p, let moved := Elem ch (from_option children [] (find_node ch (document p))) in
           let rest := flat_map (remove_node ch) (document p) in
           if bool_decide (ph ∈ elements_of [moved]) then Throw "HierarchyRequestError"
           else Ok tt (log (MAppend ph ch)
                           (with_document
                              (λ _, map (with_children ph (λ ks, ks ++ [moved])) rest) p))
  | _, _ => type_error
  end.

(** The children that an assignment of [s] to [textContent] leaves: one text
    node, or none when [s] is empty; the old children are dropped. *)
Definition text_kids (s : string) : list node → list node :=
  λ _, if bool_decide (s = "") then [] else [Text s].

(** [r.textContent = s] *)
Definition set_textContent (r : ref) (s : string) : JS unit :=
  match r with
  | None => type_error
  | Some h =>
      λ p, Ok tt (log (MText h s)
                      (with_document (map (with_children h (text_kids s))) p))
  end.

(** [r.textContent], for an element of the document. *)
Definition textContent (p : page) (h : handle) : option string :=
  text_of <$> find_node h (document p).

Definition listeners_of (p : page) (h : handle) : list listener :=
  default [] (listeners p !! h).

(** [r.addEventListener("change", l)]: a listener already registered on the
    element is not registered again. *)
Definition addEventListener (r : ref) (l : listener) : JS unit :=
  match r with
  | None => type_error
  | Some h =>
      λ p, if bool_decide (l ∈ listeners_of p h) then Ok tt p
           else Ok tt (log (MListen h l)
                           (Page (document p) (props p)
                                 (<[h := listeners_of p h ++ [l]]> (listeners p))
                                 (mutations p)))
  end.

Definition is_null (r : ref) : bool :=
  match r with None => true | Some _ => false end.

(** ** The script *)

Definition msg_none : string := "Ни одной записи не выбрано.".
Definition msg_one : string := "Выбрана 1 запись для включения в ТЗ.".

(** The decimal digits of a count, as a template literal prints a
    non-negative integer. *)
Definition decimal (n : nat) : string := NilZero.string_of_uint (Nat.to_uint n).

Definition msg_many (n : nat) : string :=
  "Выбрано " +:+ decimal n +:+ " записей для включения в ТЗ.".

(** [updateCounter] (lines 27-36). *)
Definition updateCounter (e : env) : JS unit :=
  do picked ← array_filter (checkboxes e) (λ cb, get_checked (Some cb));
  let selected := length picked in
  if selected =? 0 then set_textContent (counter e) msg_none
  else if selected =? 1 then set_textContent (counter e) msg_one
  else set_textContent (counter e) (msg_many selected).

(** The [change] listener of the select-all control (lines 45-51). *)
Definition selectAllChange (e : env) : JS unit :=
  do value ← get_checked (selectAll e);
  run forEach (checkboxes e) (λ cb, set_checked (Some cb) value);
  updateCounter e.

Definition sel_history_form : selector := [Class "history-form"].
Definition sel_table : selector := [Class "table-history"].
Definition sel_log_ids : selector :=
  [Tag "input"; AttrEq "type" "checkbox"; AttrEq "name" "log_ids"].
Definition sel_select_all : selector := [Id "select_all_logs"].
Definition sel_counter : selector := [Class "selected-count"].

(** The [DOMContentLoaded] handler (lines 3-53).  The handler returns nothing;
    the embedding returns the variables its closures captured, or [None] when
    it left at line 6, so that theorems can name the counter and the
    snapshot. *)
Definition init : JS (option env) :=
  do historyForm ← document_querySelector sel_history_form;
  if is_null historyForm then ret None else
  do table ← querySelector historyForm sel_table;
  do checkboxes ← querySelectorAll historyForm sel_log_ids;
  do selectAll ← querySelector historyForm sel_select_all;
  do found ← document_querySelector sel_counter;
  do counter ←
    (if is_null found then
       do created ← createElement "div";
       run set_className created "selected-count";
       run set_style created "marginTop" "0.4rem";
       run set_style created "fontSize" "0.8rem";
       run set_style created "color" "rgba(209, 213, 219, 0.9)";
       run appendChild historyForm created;
       ret created
     else ret found);
  let e := Env checkboxes selectAll counter in
  run updateCounter e;
  run forEach checkboxes (λ cb, addEventListener (Some cb) (UpdateCounter e));
  run (if is_null selectAll then ret tt
       else addEventListener selectAll (SelectAllChange e));
  ret (Some e).

(** ** Events *)

Definition call (l : listener) : JS unit :=
  match l with
  | UpdateCounter e => updateCounter e
  | SelectAllChange e => selectAllChange e
  end.

(** A [change] event on [target] runs the listeners of the target and then,
    bubbling, those of its ancestors; the path is fixed before the first
    listener runs.  A listener that throws ends the run here (a browser would
    report the exception and go on); the listeners of the script never
    throw on the pages the handler leaves ([toggles_preserve]). *)
Definition dispatch_change (target : handle) : JS unit :=
  λ p, forEach (target :: ancestors target (document p))
               (λ h q, forEach (listeners_of q h) call q) p.

(** The user toggles a checkbox: its checkedness flips, then [change] fires. *)
Definition toggle (target : handle) : JS unit :=
  λ p, dispatch_change target
         (alter_props target (λ e, set_checked_of e (negb (checked e))) p).

Fixpoint toggles (targets : list handle) : JS unit :=
  match targets with
  | [] => ret tt
  | t :: ts => run toggle t; toggles ts
  end.

(** The number of checked checkboxes of the snapshot. *)
Definition selected_count (e : env) (p : page) : nat :=
  length (filter (λ cb, is_checked p cb = true) (checkboxes e)).

(** The three-way rule of the specification, as a function of the count;
    [updateCounter_unfold] shows that the code writes this text. *)
Definition message (n : nat) : string :=
  match n with
  | 0 => msg_none
  | 1 => msg_one
  | _ => msg_many n
  end.

(** ** Example pages *)

Definition checkbox (b : bool) : element :=
  Element "input" [("type", "checkbox"); ("name", "log_ids")] b [].

Definition form_el : element := Element "form" [("class", "history-form")] false [].

(** A history form (element 1) with three unchecked checkboxes (2, 3, 4) and a
    select-all checkbox (5). *)
Definition page3 : page :=
  Page [Elem 0 [Elem 1 [Elem 5 []; Elem 2 []; Elem 3 []; Elem 4 []]]]
       (list_to_map
          [(0, Element "body" [] false []); (1, form_el);
           (2, checkbox false); (3, checkbox false); (4, checkbox false);
           (5, Element "input" [("type", "checkbox"); ("id", "select_all_logs")] false [])])
       ∅ [].

(** A page whose only [.selected-count] element (9) is outside the form. *)
Definition page_outside : page :=
  Page [Elem 0 [Elem 1 [Elem 2 []]; Elem 9 [Text "old"]]]
       (list_to_map
          [(0, Element "body" [] false []); (1, form_el); (2, checkbox true);
           (9, Element "p" [("class", "note selected-count")] false [])])
       ∅ [].

(** A page without a history form. *)
Definition page_other : page :=
  Page [Elem 0 [Elem 2 []; Elem 9 []]]
       (list_to_map
          [(0, Element "body" [] false []); (2, checkbox true);
           (9, Element "p" [("class", "selected-count")] false [])])
       ∅ [].

(** ** Definitions used by the statements *)

(** The page after [c.textContent = s]. *)
Definition write_text (c : handle) (s : string) (p : page) : page :=
  log (MText c s) (with_document (map (with_children c (text_kids s))) p).

(** Read a decimal numeral. *)
Definition parse_decimal (s : string) : option nat :=
  Nat.of_uint <$> NilZero.uint_of_string s.

(** The element store after [cb.checked = v] for each [cb] of [cbs]. *)
Definition check_all (v : bool) (cbs : list handle) (m : gmap handle element) :
    gmap handle element :=
  foldl (λ m cb, alter (λ e, set_checked_of e v) cb m) m cbs.

Definition is_text_write (m : mutation) : bool :=
  match m with MText _ _ => true | _ => false end.

(** The number of assignments to a [textContent] among some writes. *)
Definition text_writes (ms : list mutation) : nat :=
  length (List.filter is_text_write ms).

(** What the four look-ups of the handler return on a page. *)
Definition form_of (p : page) : ref :=
  first_match p sel_history_form (elements_of (document p)).
Definition snapshot_of (p : page) (f : handle) : list handle :=
  all_matches p sel_log_ids (descendants f (document p)).
Definition select_all_of (p : page) (f : handle) : ref :=
  first_match p sel_select_all (descendants f (document p)).
Definition existing_counter (p : page) : ref :=
  first_match p sel_counter (elements_of (document p)).

(** The element that lines 19-23 build. *)
Definition created_counter : element :=
  Element "div" [("class", "selected-count")] false
    [("marginTop", "0.4rem"); ("fontSize", "0.8rem");
     ("color", "rgba(209, 213, 219, 0.9)")].

(** The page after lines 19-24 on a page without counter. *)
Definition create_counter (f : handle) (p : page) : page :=
  let c := fresh_handle p in
  Page (map (with_children f (λ ks, ks ++ [Elem c []])) (document p))
       (<[c := created_counter]> (props p))
       (listeners p)
       (mutations p ++
          [MCreate c "div"; MAttr c "class" "selected-count";
           MStyle c "marginTop" "0.4rem"; MStyle c "fontSize" "0.8rem";
           MStyle c "color" "rgba(209, 213, 219, 0.9)"; MAppend f c]).

(** The page after one [addEventListener]. *)
Definition listen (h : handle) (l : listener) (p : page) : page :=
  if bool_decide (l ∈ listeners_of p h) then p
  else log (MListen h l)
           (Page (document p) (props p)
                 (<[h := listeners_of p h ++ [l]]> (listeners p)) (mutations p)).

Definition listen_all (hs : list handle) (l : listener) (p : page) : page :=
  foldl (λ q h, listen h l q) p hs.

(** The page after lines 40-52. *)
Definition wire (e : env) (p : page) : page :=
  let q := listen_all (checkboxes e) (UpdateCounter e) p in
  match selectAll e with
  | Some sa => listen sa (SelectAllChange e) q
  | None => q
  end.

(** Kinds of writes. *)
Definition is_listen (m : mutation) : bool :=
  match m with MListen _ _ => true | _ => false end.

(** A history form (element 1) without checkboxes and without controls. *)
Definition page_empty : page :=
  Page [Elem 0 [Elem 1 [Text "no records"]]]
       (list_to_map [(0, Element "body" [] false []); (1, form_el)])
       ∅ [].

(** The reading of the specification: the counter is looked up among the
    descendants of the form, and a new element is built exactly when the form
    holds none. *)
Definition counter_searched_in_form (p : page) : Prop :=
  ∀ f e p',
    form_of p = Some f →
    init p = Ok (Some e) p' →
    match first_match p sel_counter (descendants f (document p)) with
    | Some c => counter e = Some c
    | None => ∃ c, counter e = Some c ∧ props p !! c = None
    end.

Definition is_text_or_listen (m : mutation) : bool :=
  match m with MText _ _ | MListen _ _ => true | _ => false end.

(** A listener of this run of the script: [updateCounter], or the select-all
    listener when there is a select-all control. *)
Definition own_listener (e : env) (l : listener) : Prop :=
  l = UpdateCounter e ∨ (l = SelectAllChange e ∧ is_Some (selectAll e)).

(** Every checkbox of the snapshot has [updateCounter] among its listeners,
    and the page has no listener but those of this run. *)
Definition wired (e : env) (p : page) : Prop :=
  (∀ cb, cb ∈ checkboxes e → UpdateCounter e ∈ listeners_of p cb) ∧
  (∀ h l, l ∈ listeners_of p h → own_listener e l).

(** The counter is in the document and shows the text of the current count. *)
Definition shown (e : env) (c : handle) (p : page) : Prop :=
  c ∈ elements_of (document p) ∧
  textContent p c = Some (message (selected_count e p)).

(** The page after the loop of the select-all listener. *)
Definition checked_all (v : bool) (cbs : list handle) (p : page) : page :=
  Page (document p) (check_all v cbs (props p)) (listeners p)
       (mutations p ++ map (λ cb, MChecked cb v) cbs).

(** The page and the counter text after the handler and a sequence of
    toggles. *)
Definition after (targets : list handle) (p : page) : option (page * string) :=
  match (do e ← init; run toggles targets; ret e) p with
  | Ok (Some e) p' =>
      match counter e with
      | Some c => pair p' <$> textContent p' c
      | None => None
      end
  | _ => None
  end.

(** The page [page3] after the handler and a toggle of checkbox 3. *)
Definition page3_one : page :=
  match after [3] page3 with
  | Some (p, _) => p
  | None => page3
  end.

(** The variables the closures hold on [page3]. *)
Definition env3 : env := Env [2; 3; 4] (Some 5) (Some 6).

(** ** Definitions for the properties of the running page *)

(** The page after the user has flipped [t], before [change] is dispatched. *)
Definition flip (t : handle) (p : page) : page :=
  alter_props t (λ e, set_checked_of e (negb (checked e))) p.

(** The listeners that lines 40-52 put on the element [h]. *)
Definition own_listeners (e : env) (h : handle) : list listener :=
  (if bool_decide (h ∈ checkboxes e) then [UpdateCounter e] else []) ++
  (if bool_decide (selectAll e = Some h) then [SelectAllChange e] else []).

(** The page after [updateCounter], and after the select-all listener of the
    control [sa]. *)
Definition after_update (e : env) (c : handle) (q : page) : page :=
  write_text c (message (selected_count e q)) q.

Definition after_select_all (e : env) (c sa : handle) (q : page) : page :=
  after_update e c (checked_all (is_checked q sa) (checkboxes e) q).

(** The page after the listeners of [h] have run, and after those of a whole
    event path. *)
Definition after_listeners (e : env) (c : handle) (q : page) (h : handle) : page :=
  let q1 := if bool_decide (h ∈ checkboxes e) then after_update e c q else q in
  if bool_decide (selectAll e = Some h) then after_select_all e c h q1 else q1.

Definition after_path (e : env) (c : handle) (hs : list handle) (q : page) : page :=
  foldl (after_listeners e c) q hs.

(** A page on which the script is set up: the counter is in the document and
    up to date, every element has exactly the listeners of this run, and the
    snapshot and the select-all control are live elements. *)
Definition ready (e : env) (c : handle) (p : page) : Prop :=
  counter e = Some c ∧
  shown e c p ∧
  (∀ h, listeners_of p h = own_listeners e h) ∧
  Forall (λ cb, is_Some (props p !! cb)) (checkboxes e) ∧
  (∀ sa, selectAll e = Some sa → is_Some (props p !! sa)).

(** [p1] is reached from the page [p] by the handler, which captured [e],
    followed by some toggles. *)
Definition reached (p : page) (e : env) (p1 : page) : Prop :=
  ∃ p0 ts, init p = Ok (Some e) p0 ∧ toggles ts p0 = Ok tt p1.

(** The page [page3] after the handler. *)
Definition page3_init : page :=
  match init page3 with
  | Ok _ p => p
  | Throw _ => page3
  end.

(** What the script never writes: the tag, the attributes and the inline style
    of an element. *)
Definition static (el : element) : string * list (string * string) * list (string * string) :=
  (tagName el, attrs el, style el).

(** The document [d] is [base], possibly with the children of [c] replaced by
    a text. *)
Definition written (c : handle) (base d : list node) : Prop :=
  d = base ∨ ∃ s, d = map (with_children c (text_kids s)) base.

(** ** Induction over forests *)

Section forest_induction.
Variable P : list node → Prop.
Hypothesis P_nil : P [].
Hypothesis P_text : ∀ s ns, P ns → P (Text s :: ns).
Hypothesis P_elem : ∀ h kids ns, P kids → P ns → P (Elem h kids :: ns).

Fixpoint node_forest_ind (n : node) : ∀ ns, P ns → P (n :: ns) :=
  match n with
  | Text s => P_text s
  | Elem h kids =>
      λ ns Hns,
        P_elem h kids ns
          ((fix go (ks : list node) : P ks :=
              match ks with
              | [] => P_nil
              | k :: ks' => node_forest_ind k ks' (go ks')
              end) kids) Hns
  end.

Lemma forest_ind (ns : list node) : P ns.
Proof. induction ns as [|n ns IH]; [exact P_nil | exact (node_forest_ind n ns IH)]. Qed.
End forest_induction.

(** ** Facts about the tree operations *)

Lemma elements_of_nil : elements_of [] = [].
Proof. reflexivity. Qed.

Lemma elements_of_text s ns : elements_of (Text s :: ns) = elements_of ns.
Proof. reflexivity. Qed.

Lemma elements_of_elem h kids ns :
  elements_of (Elem h kids :: ns) = h :: elements_of kids ++ elements_of ns.
Proof.
  unfold elements_of. simpl. f_equal. by rewrite omap_app.
Qed.

Lemma elements_of_app ns ms : elements_of (ns ++ ms) = elements_of ns ++ elements_of ms.
Proof. unfold elements_of. by rewrite flat_map_app, omap_app. Qed.

Lemma find_node_nil h : find_node h [] = None.
Proof. reflexivity. Qed.

Lemma find_node_text h s ns : find_node h (Text s :: ns) = find_node h ns.
Proof.
  unfold find_node. simpl. rewrite filter_cons_False; [done | simpl; congruence].
Qed.

Lemma find_node_app h ns ms :
  find_node h (ns ++ ms) =
  match find_node h ns with Some n => Some n | None => find_node h ms end.
Proof.
  unfold find_node. rewrite flat_map_app, filter_app.
  by destruct (filter _ (flat_map subtrees ns)).
Qed.

Lemma find_node_elem h h' kids ns :
  find_node h (Elem h' kids :: ns) =
  if decide (h' = h) then Some (Elem h' kids)
  else match find_node h kids with Some n => Some n | None => find_node h ns end.
Proof.
  change (Elem h' kids :: ns) with ([Elem h' kids] ++ ns).
  rewrite find_node_app. unfold find_node at 1. simpl. rewrite app_nil_r.
  destruct (decide (h' = h)) as [->|Hne].
  - by rewrite filter_cons_True.
  - rewrite filter_cons_False by (simpl; congruence).
    fold (find_node h kids). by destruct (find_node h kids).
Qed.

Lemma find_node_root h ns n : find_node h ns = Some n → root n = Some h.
Proof.
  unfold find_node. intros H. apply head_Some_elem_of in H.
  by apply list_elem_of_filter in H as [? _].
Qed.

Lemma find_node_None h ns : find_node h ns = None ↔ h ∉ elements_of ns.
Proof.
  induction ns as [|s ns IH|h' kids ns IHk IHn] using forest_ind.
  - rewrite find_node_nil, elements_of_nil. split; [intros _; apply not_elem_of_nil | done].
  - by rewrite find_node_text, elements_of_text.
  - rewrite find_node_elem, elements_of_elem.
    destruct (decide (h' = h)) as [->|Hne].
    + split; [done | intros H; exfalso; apply H; left].
    + rewrite not_elem_of_cons, not_elem_of_app, <- IHk, <- IHn.
      destruct (find_node h kids); intuition congruence.
Qed.

Lemma find_node_is_Some h ns : is_Some (find_node h ns) ↔ h ∈ elements_of ns.
Proof.
  rewrite <- not_eq_None_Some, find_node_None.
  destruct (decide (h ∈ elements_of ns)); naive_solver.
Qed.

(** Rewriting the children of an element that is not in the forest changes
    nothing. *)
Lemma with_children_absent h f ns :
  h ∉ elements_of ns → map (with_children h f) ns = ns.
Proof.
  induction ns as [|s ns IH|h' kids ns IHk IHn] using forest_ind; intros Hnot.
  - done.
  - simpl. f_equal. apply IH. by rewrite elements_of_text in Hnot.
  - rewrite elements_of_elem, not_elem_of_cons, not_elem_of_app in Hnot.
    destruct Hnot as (Hne & Hk & Hn). simpl.
    destruct (decide (h' = h)); [congruence|].
    by rewrite IHk, IHn.
Qed.

Lemma remove_node_absent h ns :
  h ∉ elements_of ns → flat_map (remove_node h) ns = ns.
Proof.
  induction ns as [|s ns IH|h' kids ns IHk IHn] using forest_ind; intros Hnot.
  - done.
  - simpl. f_equal. apply IH. by rewrite elements_of_text in Hnot.
  - rewrite elements_of_elem, not_elem_of_cons, not_elem_of_app in Hnot.
    destruct Hnot as (Hne & Hk & Hn). simpl.
    destruct (decide (h' = h)); [congruence|].
    simpl. by rewrite IHk, IHn.
Qed.

(** The element whose children are rewritten is found again, with the new
    children. *)
Lemma find_node_with_children h f ns n :
  find_node h ns = Some n →
  find_node h (map (with_children h f) ns) = Some (Elem h (f (children n))).
Proof.
  revert n.
  induction ns as [|s ns IH|h' kids ns IHk IHn] using forest_ind; intros n.
  - by rewrite find_node_nil.
  - simpl. rewrite !find_node_text. apply IH.
  - simpl. rewrite find_node_elem.
    destruct (decide (h' = h)) as [->|Hne].
    + intros [= <-]. rewrite find_node_elem. by rewrite decide_True by done.
    + rewrite find_node_elem. rewrite decide_False by done.
      destruct (find_node h kids) as [k|] eqn:Hk.
      * intros [= <-]. by rewrite (IHk k eq_refl).
      * intros Hn.
        assert (find_node h (map (with_children h f) kids) = None) as ->.
        { rewrite with_children_absent by (by apply find_node_None). done. }
        by apply IHn.
Qed.

Lemma text_of_text_kids h s ks : text_of (Elem h (text_kids s ks)) = s.
Proof. unfold text_kids. by case_bool_decide; subst. Qed.

(** Rewriting the children of [c] twice with a constant is rewriting them
    once. *)
Lemma with_children_const_twice c (g : list node) ns :
  map (with_children c (λ _, g)) (map (with_children c (λ _, g)) ns) =
  map (with_children c (λ _, g)) ns.
Proof.
  induction ns as [|s ns IH|h' kids ns IHk IHn] using forest_ind.
  - done.
  - simpl. by rewrite IH.
  - simpl. destruct (decide (h' = c)) as [->|Hne]; simpl.
    + rewrite decide_True by done. by rewrite IHn.
    + rewrite decide_False by done. by rewrite IHk, IHn.
Qed.

(** A fresh leaf appended under [f] and then given children is the leaf with
    those children appended under [f]. *)
Lemma with_children_appended c f g ns :
  c ≠ f → c ∉ elements_of ns →
  map (with_children c g) (map (with_children f (λ ks, ks ++ [Elem c []])) ns) =
  map (with_children f (λ ks, ks ++ [Elem c (g [])])) ns.
Proof.
  intros Hcf.
  induction ns as [|s ns IH|h' kids ns IHk IHn] using forest_ind; intros Hnot.
  - done.
  - simpl. f_equal. apply IH. by rewrite elements_of_text in Hnot.
  - rewrite elements_of_elem, not_elem_of_cons, not_elem_of_app in Hnot.
    destruct Hnot as (Hne & Hk & Hn). simpl.
    destruct (decide (h' = f)) as [->|Hhf]; simpl.
    + rewrite decide_False by done. rewrite map_app. simpl.
      rewrite decide_True by done.
      by rewrite (with_children_absent c g kids Hk), IHn.
    + rewrite decide_False by congruence. by rewrite IHk, IHn.
Qed.

(** ** Facts about the script's steps *)

Lemma page_eta p : Page (document p) (props p) (listeners p) (mutations p) = p.
Proof. by destruct p. Qed.

Lemma array_filter_checked cbs p :
  array_filter cbs (λ cb, get_checked (Some cb)) p =
  Ok (filter (λ cb, is_checked p cb = true) cbs) p.
Proof.
  induction cbs as [|cb cbs IH]; [done|].
  cbn [array_filter get_checked] in *. unfold bind. rewrite IH. unfold ret.
  destruct (is_checked p cb) eqn:Hcb.
  - by rewrite filter_cons_True.
  - rewrite filter_cons_False; [done | congruence].
Qed.

(** [updateCounter] is one assignment to [counter.textContent]. *)
Lemma updateCounter_unfold e p :
  updateCounter e p = set_textContent (counter e) (message (selected_count e p)) p.
Proof.
  unfold updateCounter, bind. rewrite array_filter_checked.
  fold (selected_count e p).
  by destruct (selected_count e p) as [|[|n]].
Qed.

Lemma updateCounter_Some e p c :
  counter e = Some c →
  updateCounter e p = Ok tt (write_text c (message (selected_count e p)) p).
Proof. intros Hc. rewrite updateCounter_unfold, Hc. reflexivity. Qed.

Lemma textContent_write_text c s p :
  c ∈ elements_of (document p) → textContent (write_text c s p) c = Some s.
Proof.
  intros Hin. apply find_node_is_Some in Hin as [n Hn].
  unfold textContent, write_text. simpl.
  rewrite (find_node_with_children _ _ _ _ Hn). simpl.
  f_equal. apply (text_of_text_kids c).
Qed.

Lemma elements_of_write_text c s p :
  c ∈ elements_of (document p) → c ∈ elements_of (document (write_text c s p)).
Proof.
  intros Hin. apply find_node_is_Some in Hin as [n Hn].
  apply find_node_is_Some. simpl.
  rewrite (find_node_with_children _ _ _ _ Hn). eauto.
Qed.

Lemma selected_count_props e p q :
  props q = props p → selected_count e q = selected_count e p.
Proof.
  intros Hp. unfold selected_count. f_equal.
  apply list_filter_iff. intros cb. unfold is_checked. by rewrite Hp.
Qed.

Lemma decimal_not_nil n : Nat.to_uint n ≠ Decimal.Nil.
Proof.
  intros H. pose proof (Unsigned.of_to n) as Hn. rewrite H in Hn.
  simpl in Hn. subst n. discriminate H.
Qed.

(** [decimal n] is the decimal numeral of [n]: it reads back as [n]. *)
Lemma parse_decimal_decimal n : parse_decimal (decimal n) = Some n.
Proof.
  unfold parse_decimal, decimal.
  rewrite NilZero.usu by apply decimal_not_nil.
  simpl. by rewrite Unsigned.of_to.
Qed.

(** C1.  For every state of the snapshot, [updateCounter] returns normally and
    leaves in the counter element exactly the text that the number [n] of
    checked checkboxes dictates: the "none" sentence for 0, the "one" sentence
    for 1, and for 2 or more the "many" sentence around the decimal numeral of
    [n].  The counter is the element the closure holds, an element of the
    document. *)
Theorem updateCounter_three_way (e : env) (p : page) (c : handle) :
  counter e = Some c →
  c ∈ elements_of (document p) →
  ∃ p', updateCounter e p = Ok tt p' ∧
    let n := selected_count e p in
    selected_count e p' = n ∧
    (n = 0 → textContent p' c = Some "Ни одной записи не выбрано.") ∧
    (n = 1 → textContent p' c = Some "Выбрана 1 запись для включения в ТЗ.") ∧
    (2 ≤ n → textContent p' c =
               Some ("Выбрано " +:+ decimal n +:+ " записей для включения в ТЗ.") ∧
             parse_decimal (decimal n) = Some n).
Proof.
  intros Hc Hin. eexists. split; [by apply updateCounter_Some|].
  simpl. split; [by apply selected_count_props|].
  rewrite textContent_write_text by done.
  repeat split.
  - by intros ->.
  - by intros ->.
  - destruct (selected_count e p) as [|[|n]]; [lia | lia | done].
  - apply parse_decimal_decimal.
Qed.

Lemma forEach_set_checked v cbs p :
  forEach cbs (λ cb, set_checked (Some cb) v) p =
  Ok tt (Page (document p) (check_all v cbs (props p)) (listeners p)
              (mutations p ++ map (λ cb, MChecked cb v) cbs)).
Proof.
  revert p. induction cbs as [|cb cbs IH]; intros p.
  - simpl. unfold ret. by rewrite app_nil_r, page_eta.
  - cbn [forEach set_checked]. unfold bind. rewrite IH. simpl.
    by rewrite <- app_assoc.
Qed.

Lemma check_all_lookup v cbs (m : gmap handle element) h :
  check_all v cbs m !! h =
  if decide (h ∈ cbs) then (λ e, set_checked_of e v) <$> m !! h else m !! h.
Proof.
  revert m. induction cbs as [|cb cbs IH]; intros m.
  - rewrite decide_False by apply not_elem_of_nil. done.
  - unfold check_all in *. cbn [foldl]. rewrite IH, lookup_alter.
    destruct (decide (cb = h)) as [->|Hne].
    + rewrite (decide_True (P := h ∈ h :: cbs)) by left.
      destruct (decide (h ∈ cbs)); [|done].
      by destruct (m !! h).
    + destruct (decide (h ∈ cbs)) as [Hin|Hnin].
      * by rewrite decide_True by (by right).
      * rewrite decide_False; [done|].
        rewrite not_elem_of_cons. split; [congruence | done].
Qed.

Lemma text_writes_checked v cbs : text_writes (map (λ cb, MChecked cb v) cbs) = 0.
Proof. unfold text_writes. by induction cbs. Qed.

Lemma text_writes_app ms ms' : text_writes (ms ++ ms') = text_writes ms + text_writes ms'.
Proof. unfold text_writes. by rewrite List.filter_app, length_app. Qed.

Lemma selected_count_uniform e p v :
  (∀ cb, cb ∈ checkboxes e → is_checked p cb = v) →
  selected_count e p = if v then length (checkboxes e) else 0.
Proof.
  unfold selected_count. induction (checkboxes e) as [|cb cbs IH]; intros Hall.
  - by destruct v.
  - specialize (IH (λ x Hx, Hall x (list_elem_of_further _ _ _ Hx))).
    pose proof (Hall cb (list_elem_of_here _ _)) as Hcb.
    destruct v.
    + rewrite filter_cons_True by done. simpl. by rewrite IH.
    + rewrite filter_cons_False by congruence. done.
Qed.

(** C7.  [updateCounter] is idempotent: when a call has returned, a second
    call with no change in between returns too and leaves the document, hence
    the counter's text, and the element properties as the first call left
    them. *)
Theorem updateCounter_idempotent (e : env) (p p1 : page) :
  updateCounter e p = Ok tt p1 →
  ∃ p2, updateCounter e p1 = Ok tt p2 ∧
    document p2 = document p1 ∧
    props p2 = props p1 ∧
    listeners p2 = listeners p1 ∧
    ∀ c, counter e = Some c → textContent p2 c = textContent p1 c.
Proof.
  intros H1. destruct (counter e) as [c|] eqn:Hc.
  - rewrite (updateCounter_Some e p c Hc) in H1. injection H1 as <-.
    set (m := message (selected_count e p)).
    exists (write_text c m (write_text c m p)).
    assert (document (write_text c m (write_text c m p)) =
            document (write_text c m p)) as Hdoc.
    { exact (with_children_const_twice c (text_kids m []) (document p)). }
    split.
    { rewrite (updateCounter_Some e _ c Hc).
      by rewrite (selected_count_props e p (write_text c m p) eq_refl). }
    repeat split; [done|].
    intros c' _. unfold textContent. by rewrite Hdoc.
  - rewrite updateCounter_unfold, Hc in H1. discriminate H1.
Qed.

(** C9.  [updateCounter] writes nothing but the text of the counter: exactly
    one write is recorded, an assignment to the counter's [textContent]; the
    element properties are untouched, so every checkbox of the snapshot and
    the select-all control keep their checked state; no listener changes. *)
Theorem updateCounter_frame (e : env) (p : page) (c : handle) :
  counter e = Some c →
  ∃ p' s, updateCounter e p = Ok tt p' ∧
    mutations p' = mutations p ++ [MText c s] ∧
    document p' = map (with_children c (text_kids s)) (document p) ∧
    props p' = props p ∧
    listeners p' = listeners p ∧
    (∀ cb, cb ∈ checkboxes e → is_checked p' cb = is_checked p cb) ∧
    (∀ sa, selectAll e = Some sa → is_checked p' sa = is_checked p sa).
Proof.
  intros Hc. exists (write_text c (message (selected_count e p)) p).
  exists (message (selected_count e p)).
  split; [by apply updateCounter_Some|]. repeat split.
Qed.

(** C2.  With a select-all control [sa] present, its [change] listener returns
    normally; afterwards every checkbox of the snapshot has the checked state
    [v] that [sa] had when the listener started; and the writes it performed
    are one assignment of [v] per checkbox, in snapshot order, followed by a
    single assignment to the counter's text, the one for the resulting
    count. *)
Theorem selectAllChange_sets_all_then_one_update (e : env) (p : page) (sa c : handle) :
  selectAll e = Some sa →
  counter e = Some c →
  Forall (λ cb, is_Some (props p !! cb)) (checkboxes e) →
  ∃ p', selectAllChange e p = Ok tt p' ∧
    let v := is_checked p sa in
    (∀ cb, cb ∈ checkboxes e → is_checked p' cb = v) ∧
    mutations p' = mutations p
                   ++ map (λ cb, MChecked cb v) (checkboxes e)
                   ++ [MText c (message (selected_count e p'))] ∧
    text_writes (drop (length (mutations p)) (mutations p')) = 1 ∧
    selected_count e p' = (if v then length (checkboxes e) else 0).
Proof.
  intros Hsa Hc Hlive.
  unfold selectAllChange, bind. rewrite Hsa. cbn [get_checked].
  rewrite forEach_set_checked.
  set (p1 := Page _ _ _ _).
  rewrite (updateCounter_Some e p1 c Hc).
  eexists. split; [reflexivity|].
  assert (∀ cb, cb ∈ checkboxes e → is_checked p1 cb = is_checked p sa) as Hall.
  { intros cb Hin. unfold is_checked at 1. simpl.
    rewrite check_all_lookup, decide_True by done.
    rewrite Forall_forall in Hlive. destruct (Hlive cb Hin) as [el ->]. done. }
  assert (selected_count e p1 =
          if is_checked p sa then length (checkboxes e) else 0) as Hcount.
  { by apply selected_count_uniform. }
  cbn zeta. repeat split.
  - done.
  - simpl. by rewrite <- app_assoc.
  - simpl. rewrite <- app_assoc, drop_app_length.
    rewrite text_writes_app, text_writes_checked. done.
  - done.
Qed.

(** ** The handler, phase by phase *)

Lemma forEach_addEventListener hs l p :
  forEach hs (λ h, addEventListener (Some h) l) p = Ok tt (listen_all hs l p).
Proof.
  revert p. induction hs as [|h hs IH]; intros p; [done|].
  cbn [forEach addEventListener]. unfold bind, listen_all. cbn [foldl].
  unfold listen at 2. case_bool_decide; apply IH.
Qed.

Lemma fresh_handle_props p : props p !! fresh_handle p = None.
Proof.
  apply not_elem_of_dom. intros Hin.
  apply (is_fresh (dom (props p) ∪ list_to_set (elements_of (document p)) : gset handle)).
  apply elem_of_union. by left.
Qed.

Lemma fresh_handle_document p : fresh_handle p ∉ elements_of (document p).
Proof.
  intros Hin.
  apply (is_fresh (dom (props p) ∪ list_to_set (elements_of (document p)) : gset handle)).
  apply elem_of_union. right. by apply elem_of_list_to_set.
Qed.

Lemma first_match_Some p sel hs h :
  first_match p sel hs = Some h → h ∈ hs ∧ matches p sel h = true.
Proof.
  unfold first_match, all_matches. intros H. apply head_Some_elem_of in H.
  apply list_elem_of_filter in H as [Hm Hin]. split; [done|].
  by apply Is_true_true.
Qed.

Lemma first_match_None p sel hs :
  first_match p sel hs = None ↔ ∀ h, h ∈ hs → matches p sel h = false.
Proof.
  unfold first_match, all_matches. induction hs as [|h hs IH].
  - split; [intros _ h Hin; by apply elem_of_nil in Hin | done].
  - destruct (matches p sel h) eqn:Hm.
    + rewrite filter_cons_True by (by apply Is_true_true). simpl.
      split; [done|]. intros Hall. rewrite (Hall h) in Hm by left. done.
    + rewrite filter_cons_False by (rewrite Hm; exact id).
      rewrite IH. split.
      * intros Hall h' Hin. apply elem_of_cons in Hin as [->|Hin]; eauto.
      * intros Hall h' Hin. apply Hall. by right.
Qed.

Lemma matches_live p sel h : matches p sel h = true → is_Some (props p !! h).
Proof. unfold matches. destruct (props p !! h); [eauto | done]. Qed.

(** Every element of the snapshot is a live element object. *)
Lemma snapshot_live p f :
  Forall (λ cb, is_Some (props p !! cb)) (snapshot_of p f).
Proof.
  apply Forall_forall. intros cb Hcb. apply (matches_live p sel_log_ids).
  unfold snapshot_of, all_matches in Hcb.
  apply list_elem_of_filter in Hcb as [Hm _]. by apply Is_true_true.
Qed.

(** The handler when a counter element exists: nothing is created. *)
Lemma init_found p f c :
  form_of p = Some f →
  existing_counter p = Some c →
  let e := Env (snapshot_of p f) (select_all_of p f) (Some c) in
  init p = Ok (Some e) (wire e (write_text c (message (selected_count e p)) p)).
Proof.
  intros Hf Hc e. unfold init, bind, document_querySelector.
  fold (form_of p). rewrite Hf. cbn [is_null querySelector querySelectorAll].
  fold (existing_counter p). rewrite Hc. cbn [is_null ret].
  fold (snapshot_of p f) (select_all_of p f). fold e.
  rewrite (updateCounter_Some e p c eq_refl).
  rewrite forEach_addEventListener.
  unfold wire. cbn [checkboxes selectAll e].
  destruct (select_all_of p f) as [sa|]; cbn [is_null addEventListener]; [|done].
  unfold listen. by case_bool_decide.
Qed.

(** Lines 19-24 on a page that holds the form [f]. *)
Lemma create_steps p f :
  f ∈ elements_of (document p) →
  (do created ← createElement "div";
   run set_className created "selected-count";
   run set_style created "marginTop" "0.4rem";
   run set_style created "fontSize" "0.8rem";
   run set_style created "color" "rgba(209, 213, 219, 0.9)";
   run appendChild (Some f) created;
   ret created) p
  = Ok (Some (fresh_handle p)) (create_counter f p).
Proof.
  intros Hf.
  pose proof (fresh_handle_document p) as Hfresh.
  assert (f ≠ fresh_handle p) as Hne by (intros ->; done).
  assert (find_node (fresh_handle p) (document p) = None) as Hnone
    by (by apply find_node_None).
  pose proof (remove_node_absent _ _ Hfresh) as Hrem.
  unfold create_counter.
  remember (fresh_handle p) as c eqn:Hc.
  destruct p as [d ps ls ms]. cbn [document props listeners mutations] in *.
  cbv beta iota zeta delta
    [bind ret createElement set_className set_style appendChild log
     alter_props with_document document props listeners mutations].
  rewrite <- Hc.
  rewrite Hnone, Hrem. cbn [from_option].
  rewrite bool_decide_eq_false_2.
  2:{ rewrite elements_of_elem, elements_of_nil. simpl.
      rewrite list_elem_of_singleton. done. }
  unfold ret. rewrite !alter_insert_eq. f_equal. f_equal.
  by rewrite <- !app_assoc.
Qed.

Lemma form_of_in_document p f : form_of p = Some f → f ∈ elements_of (document p).
Proof. intros H. by apply first_match_Some in H as [? _]. Qed.

(** The handler when no counter element exists: one is created. *)
Lemma init_created p f :
  form_of p = Some f →
  existing_counter p = None →
  let c := fresh_handle p in
  let e := Env (snapshot_of p f) (select_all_of p f) (Some c) in
  let p0 := create_counter f p in
  init p = Ok (Some e) (wire e (write_text c (message (selected_count e p0)) p0)).
Proof.
  intros Hf Hc c e p0. unfold init.
  unfold bind at 1. unfold document_querySelector at 1.
  fold (form_of p). rewrite Hf. cbn [is_null].
  unfold bind at 1. cbn [querySelector].
  unfold bind at 1. cbn [querySelectorAll].
  unfold bind at 1. cbn [querySelector].
  unfold bind at 1. unfold document_querySelector at 1.
  fold (existing_counter p). rewrite Hc. cbn [is_null].
  unfold bind at 1.
  rewrite (create_steps p f (form_of_in_document p f Hf)).
  fold (snapshot_of p f) (select_all_of p f). fold c e p0.
  unfold bind.
  rewrite (updateCounter_Some e p0 c eq_refl).
  rewrite forEach_addEventListener.
  unfold wire. cbn [checkboxes selectAll e].
  destruct (select_all_of p f) as [sa|]; cbn [is_null addEventListener]; [|done].
  unfold listen. by case_bool_decide.
Qed.

(** The handler on a page without the form. *)
Lemma init_absent p : form_of p = None → init p = Ok None p.
Proof.
  intros Hf. unfold init, bind, document_querySelector.
  fold (form_of p). by rewrite Hf.
Qed.

(** ** Registering listeners changes nothing but the listeners *)

Lemma listen_frame h l p :
  document (listen h l p) = document p ∧ props (listen h l p) = props p ∧
  ∃ ms, mutations (listen h l p) = mutations p ++ ms ∧
        Forall (λ m, is_listen m = true) ms.
Proof.
  unfold listen. case_bool_decide; simpl.
  - repeat split. exists []. by rewrite app_nil_r.
  - repeat split. exists [MListen h l]. split; [done|]. by constructor.
Qed.

Lemma listen_all_frame hs l p :
  document (listen_all hs l p) = document p ∧
  props (listen_all hs l p) = props p ∧
  ∃ ms, mutations (listen_all hs l p) = mutations p ++ ms ∧
        Forall (λ m, is_listen m = true) ms.
Proof.
  revert p. induction hs as [|h hs IH]; intros p.
  - repeat split. exists []. by rewrite app_nil_r.
  - unfold listen_all in *. cbn [foldl].
    destruct (IH (listen h l p)) as (Hd & Hp & ms & Hm & Hms).
    destruct (listen_frame h l p) as (Hd' & Hp' & ms' & Hm' & Hms').
    rewrite Hd, Hp, Hm, Hd', Hp', Hm'. repeat split.
    exists (ms' ++ ms). split; [by rewrite app_assoc | by apply Forall_app].
Qed.

Lemma wire_frame e p :
  document (wire e p) = document p ∧ props (wire e p) = props p ∧
  ∃ ms, mutations (wire e p) = mutations p ++ ms ∧
        Forall (λ m, is_listen m = true) ms.
Proof.
  unfold wire.
  destruct (listen_all_frame (checkboxes e) (UpdateCounter e) p)
    as (Hd & Hp & ms & Hm & Hms).
  destruct (selectAll e) as [sa|]; [|by eauto].
  destruct (listen_frame sa (SelectAllChange e)
              (listen_all (checkboxes e) (UpdateCounter e) p))
    as (Hd' & Hp' & ms' & Hm' & Hms').
  rewrite Hd', Hp', Hm', Hd, Hp, Hm. repeat split.
  exists (ms ++ ms'). split; [by rewrite app_assoc | by apply Forall_app].
Qed.

(** Replace the properties of a wired page by those of the page before. *)
Ltac wire_props :=
  match goal with
  | |- context [props (wire ?e ?q)] =>
      let H := fresh "Hwire" in
      destruct (wire_frame e q) as (_ & H & _); rewrite H; clear H
  end.

Lemma wire_no_targets e p :
  checkboxes e = [] → selectAll e = None → wire e p = p.
Proof. unfold wire. by intros -> ->. Qed.

Lemma textContent_document p q c :
  document q = document p → textContent q c = textContent p c.
Proof. unfold textContent. by intros ->. Qed.

Lemma text_writes_listen ms :
  Forall (λ m, is_listen m = true) ms → text_writes ms = 0.
Proof.
  unfold text_writes. induction 1 as [|m ms Hm _ IH]; [done|].
  simpl. by destruct m.
Qed.

Lemma message_nonempty n : message n ≠ "".
Proof. by destruct n as [|[|n]]. Qed.

Lemma text_kids_message n ks : text_kids (message n) ks = [Text (message n)].
Proof.
  unfold text_kids. rewrite bool_decide_eq_false_2; [done | apply message_nonempty].
Qed.

(** The element appended under the form is in the document. *)
Lemma appended_in_document f n ns :
  f ∈ elements_of ns →
  ∀ c, c ∈ elements_of [n] →
       c ∈ elements_of (map (with_children f (λ ks, ks ++ [n])) ns).
Proof.
  intros Hf c Hc. revert Hf.
  induction ns as [|s ns IH|h' kids ns IHk IHn] using forest_ind.
  - rewrite elements_of_nil. by intros ?%elem_of_nil.
  - simpl. by rewrite !elements_of_text.
  - rewrite elements_of_elem. simpl.
    destruct (decide (h' = f)) as [->|Hne].
    + intros _. rewrite elements_of_elem, elements_of_app.
      right. apply elem_of_app. left. apply elem_of_app. by right.
    + rewrite elements_of_elem, !elem_of_cons, !elem_of_app.
      intros [Heq | [Hk | Hn]]; [congruence | |]; right; [left | right]; eauto.
Qed.

(** ** What the handler leaves behind *)

(** The handler returns normally on every page that has the form, and the
    counter then shows the text for the count of the snapshot. *)
Lemma init_shows p f :
  form_of p = Some f →
  ∃ c p0,
    let e := Env (snapshot_of p f) (select_all_of p f) (Some c) in
    let p' := wire e (write_text c (message (selected_count e p0)) p0) in
    init p = Ok (Some e) p' ∧
    (match existing_counter p with
     | Some c' => c = c' ∧ p0 = p
     | None => c = fresh_handle p ∧ p0 = create_counter f p
     end) ∧
    c ∈ elements_of (document p0) ∧
    textContent p' c = Some (message (selected_count e p')).
Proof.
  intros Hf.
  assert (∀ c p0, c ∈ elements_of (document p0) →
            let e := Env (snapshot_of p f) (select_all_of p f) (Some c) in
            let p' := wire e (write_text c (message (selected_count e p0)) p0) in
            textContent p' c = Some (message (selected_count e p'))) as Htext.
  { intros c p0 Hin e p'.
    destruct (wire_frame e (write_text c (message (selected_count e p0)) p0))
      as (Hd & Hp & _).
    unfold p'. rewrite (textContent_document _ _ c Hd).
    rewrite textContent_write_text by done.
    by rewrite (selected_count_props e _ _ Hp). }
  destruct (existing_counter p) as [c|] eqn:Hc.
  - assert (c ∈ elements_of (document p)) as Hin
      by (by apply first_match_Some in Hc as [? _]).
    exists c, p. cbn zeta. split; [by apply init_found|].
    split; [done|]. split; [done|]. by apply Htext.
  - assert (fresh_handle p ∈ elements_of (document (create_counter f p))) as Hin.
    { simpl. apply appended_in_document; [by apply form_of_in_document|].
      rewrite elements_of_elem. left. }
    exists (fresh_handle p), (create_counter f p). cbn zeta.
    split; [by apply init_created|].
    split; [done|]. split; [done|]. by apply Htext.
Qed.

(** ** The handler on a page without the form *)

(** C4.  On a page where no element has the class [history-form], the handler
    returns normally at once, and the page it leaves is the page it found:
    same document, same element properties, same listeners, and no write
    recorded. *)
Theorem init_without_form (p : page) :
  (∀ h, h ∈ elements_of (document p) → matches p sel_history_form h = false) →
  init p = Ok None p.
Proof. intros Hno. apply init_absent. by apply first_match_None. Qed.

Lemma init_without_form_witness :
  (∀ h, h ∈ elements_of (document page_other) →
        matches page_other sel_history_form h = false) ∧
  init page_other = Ok None page_other.
Proof.
  assert (∀ h, h ∈ elements_of (document page_other) →
               matches page_other sel_history_form h = false) as Hno.
  { apply first_match_None. vm_compute. reflexivity. }
  split; [exact Hno | exact (init_without_form page_other Hno)].
Defined.

(** ** Where the counter comes from *)

(** C3, as stated, fails: on [page_outside] the form holds no
    [.selected-count] element, yet no element is built; the handler takes
    element 9, which is outside the form. *)
Lemma counter_not_searched_in_form : ¬ counter_searched_in_form page_outside.
Proof.
  intros Hclaim.
  assert (form_of page_outside = Some 1) as Hf by (vm_compute; reflexivity).
  assert (existing_counter page_outside = Some 9) as Hc by (vm_compute; reflexivity).
  specialize (Hclaim 1 _ _ Hf (init_found page_outside 1 9 Hf Hc)).
  assert (first_match page_outside sel_counter
            (descendants 1 (document page_outside)) = None) as Hnone
    by (vm_compute; reflexivity).
  rewrite Hnone in Hclaim. destruct Hclaim as (c & Hcounter & Hnew).
  simpl in Hcounter. injection Hcounter as <-.
  vm_compute in Hnew. discriminate Hnew.
Qed.

(** The run behind it: the snapshot is checkbox 2, the counter is element 9,
    no element object is added, and element 9 shows the text. *)
Example init_page_outside :
  ∃ p', init page_outside = Ok (Some (Env [2] None (Some 9))) p' ∧
        dom (props p') = dom (props page_outside) ∧
        descendants 1 (document p') = [2] ∧
        textContent p' 9 = Some "Выбрана 1 запись для включения в ТЗ.".
Proof.
  assert (form_of page_outside = Some 1) as Hf by (vm_compute; reflexivity).
  assert (existing_counter page_outside = Some 9) as Hc by (vm_compute; reflexivity).
  eexists. split; [exact (init_found page_outside 1 9 Hf Hc)|].
  repeat split; vm_compute; reflexivity.
Qed.

(** C3, amended.  On a page with the form the handler returns normally, and
    its counter is the first element of the whole document, in document
    order, that carries the class [selected-count]; then no element is built.
    Only when the document holds no such element is one built: a new element
    object, not in the document before. *)
Theorem counter_searched_in_document (p : page) (f : handle) :
  form_of p = Some f →
  ∃ e p', init p = Ok (Some e) p' ∧
    match first_match p sel_counter (elements_of (document p)) with
    | Some c => counter e = Some c ∧ props p' = props p
    | None =>
        ∃ c, counter e = Some c ∧
             props p !! c = None ∧
             (c ∉ elements_of (document p)) ∧
             props p' = <[c := created_counter]> (props p)
    end.
Proof.
  intros Hf. fold (existing_counter p).
  destruct (existing_counter p) as [c|] eqn:Hc.
  - eexists _, _. split; [by apply init_found|].
    split; [done|].
    by wire_props.
  - eexists _, _. split; [by apply init_created|].
    exists (fresh_handle p). split; [done|].
    split; [apply fresh_handle_props|]. split; [apply fresh_handle_document|].
    by wire_props.
Qed.

Lemma counter_searched_in_document_witness :
  form_of page_outside = Some 1 ∧
  ∃ e p', init page_outside = Ok (Some e) p' ∧
    match first_match page_outside sel_counter
            (elements_of (document page_outside)) with
    | Some c => counter e = Some c ∧ props p' = props page_outside
    | None =>
        ∃ c, counter e = Some c ∧
             props page_outside !! c = None ∧
             (c ∉ elements_of (document page_outside)) ∧
             props p' = <[c := created_counter]> (props page_outside)
    end.
Proof.
  assert (form_of page_outside = Some 1) as Hf by (vm_compute; reflexivity).
  split; [exact Hf | exact (counter_searched_in_document page_outside 1 Hf)].
Defined.

(** C5.  On a page with the form [f] and no [.selected-count] element, the
    handler builds exactly one element: the element store grows by one new
    object [c], a [div] whose class list is [selected-count] and whose inline
    style sets the top margin, the font size and the colour; and [c], holding
    the counter text, is the last child of the form, after the children the
    form had. *)
Theorem counter_created_when_absent (p : page) (f : handle) :
  form_of p = Some f →
  existing_counter p = None →
  ∃ e p' c kids s,
    init p = Ok (Some e) p' ∧
    counter e = Some c ∧
    props p !! c = None ∧
    (c ∉ elements_of (document p)) ∧
    props p' = <[c := created_counter]> (props p) ∧
    tagName created_counter = "div" ∧
    classList created_counter = ["selected-count"] ∧
    style created_counter =
      [("marginTop", "0.4rem"); ("fontSize", "0.8rem");
       ("color", "rgba(209, 213, 219, 0.9)")] ∧
    find_node f (document p) = Some (Elem f kids) ∧
    find_node f (document p') = Some (Elem f (kids ++ [Elem c [Text s]])) ∧
    document p' = map (with_children f (λ ks, ks ++ [Elem c [Text s]])) (document p).
Proof.
  intros Hf Hc.
  pose proof (init_created p f Hf Hc) as Hinit. cbn zeta in Hinit.
  set (c := fresh_handle p) in *.
  set (e := Env (snapshot_of p f) (select_all_of p f) (Some c)) in *.
  set (p0 := create_counter f p) in *.
  set (s := message (selected_count e p0)) in *.
  pose proof (form_of_in_document p f Hf) as Hfin.
  apply find_node_is_Some in Hfin as [n Hn].
  assert (n = Elem f (children n)) as Hshape.
  { pose proof (find_node_root _ _ _ Hn) as Hr.
    destruct n as [h ks|]; simpl in Hr; [by injection Hr as -> | discriminate]. }
  destruct (wire_frame e (write_text c s p0)) as (Hd & Hp & _).
  assert (document (wire e (write_text c s p0)) =
          map (with_children f (λ ks, ks ++ [Elem c [Text s]])) (document p)) as Hdoc.
  { rewrite Hd. simpl. fold c.
    rewrite with_children_appended.
    - unfold s. by rewrite text_kids_message.
    - intros Heq. apply (fresh_handle_document p). fold c. rewrite Heq.
      by apply form_of_in_document.
    - apply fresh_handle_document. }
  exists e, (wire e (write_text c s p0)), c, (children n), s.
  split; [done|]. split; [done|].
  split; [apply fresh_handle_props|]. split; [apply fresh_handle_document|].
  split; [by rewrite Hp|].
  split; [done|]. split; [by vm_compute|]. split; [done|].
  split; [by rewrite <- Hshape|].
  split; [|done].
  rewrite Hdoc. by rewrite (find_node_with_children _ _ _ _ Hn).
Qed.

Lemma counter_created_when_absent_witness :
  form_of page3 = Some 1 ∧
  existing_counter page3 = None ∧
  ∃ e p' c kids s,
    init page3 = Ok (Some e) p' ∧
    counter e = Some c ∧
    props page3 !! c = None ∧
    (c ∉ elements_of (document page3)) ∧
    props p' = <[c := created_counter]> (props page3) ∧
    tagName created_counter = "div" ∧
    classList created_counter = ["selected-count"] ∧
    style created_counter =
      [("marginTop", "0.4rem"); ("fontSize", "0.8rem");
       ("color", "rgba(209, 213, 219, 0.9)")] ∧
    find_node 1 (document page3) = Some (Elem 1 kids) ∧
    find_node 1 (document p') = Some (Elem 1 (kids ++ [Elem c [Text s]])) ∧
    document p' =
      map (with_children 1 (λ ks, ks ++ [Elem c [Text s]])) (document page3).
Proof.
  assert (form_of page3 = Some 1) as Hf by (vm_compute; reflexivity).
  assert (existing_counter page3 = None) as Hc by (vm_compute; reflexivity).
  split; [exact Hf|]. split; [exact Hc|].
  exact (counter_created_when_absent page3 1 Hf Hc).
Defined.

(** C10.  When the document holds a [.selected-count] element [c], the
    handler builds nothing and restyles nothing: every element keeps its
    properties, so the style and the class of [c] are as found; the writes
    recorded are assignments to a text and listener registrations only, none
    to a style and no [appendChild]; and when the handler has gone past line 6
    its counter is [c], and the document is the one it found but for the
    children of [c], replaced by the counter text: [c] stays where it was. *)
Theorem counter_reused_as_found (p : page) (c : handle) :
  existing_counter p = Some c →
  ∃ r p' ms,
    init p = Ok r p' ∧
    props p' = props p ∧
    mutations p' = mutations p ++ ms ∧
    Forall (λ m, is_text_or_listen m = true) ms ∧
    match r with
    | Some e =>
        counter e = Some c ∧
        ∃ s, document p' = map (with_children c (λ _, [Text s])) (document p)
    | None => p' = p
    end.
Proof.
  intros Hc. destruct (form_of p) as [f|] eqn:Hf.
  - pose proof (init_found p f c Hf Hc) as Hinit. cbn zeta in Hinit.
    set (e := Env (snapshot_of p f) (select_all_of p f) (Some c)) in *.
    destruct (wire_frame e (write_text c (message (selected_count e p)) p))
      as (Hd & Hp & ms & Hm & Hms).
    exists (Some e), (wire e (write_text c (message (selected_count e p)) p)),
      (MText c (message (selected_count e p)) :: ms).
    split; [exact Hinit|]. split; [by rewrite Hp|].
    split; [rewrite Hm; simpl; by rewrite <- app_assoc|].
    split.
    { constructor; [done|]. eapply Forall_impl; [exact Hms|].
      intros m. by destruct m. }
    split; [done|]. exists (message (selected_count e p)).
    rewrite Hd. simpl. unfold text_kids.
    by rewrite bool_decide_eq_false_2 by apply message_nonempty.
  - exists None, p, []. rewrite app_nil_r.
    split; [by apply init_absent|]. by repeat split.
Qed.

Lemma counter_reused_as_found_witness :
  existing_counter page_outside = Some 9 ∧
  ∃ r p' ms,
    init page_outside = Ok r p' ∧
    props p' = props page_outside ∧
    mutations p' = mutations page_outside ++ ms ∧
    Forall (λ m, is_text_or_listen m = true) ms ∧
    match r with
    | Some e =>
        counter e = Some 9 ∧
        ∃ s, document p' =
             map (with_children 9 (λ _, [Text s])) (document page_outside)
    | None => p' = page_outside
    end.
Proof.
  assert (existing_counter page_outside = Some 9) as Hc by (vm_compute; reflexivity).
  split; [exact Hc | exact (counter_reused_as_found page_outside 9 Hc)].
Defined.

(** C8.  On a page with the form but without any [log_ids] checkbox the
    handler returns normally with an empty snapshot, and the counter shows
    the "none" sentence; the counter is a new element when the document held
    none; and without a select-all control nothing is registered: the
    listeners are those the page had. *)
Theorem init_without_checkboxes (p : page) (f : handle) :
  form_of p = Some f →
  snapshot_of p f = [] →
  ∃ e p' c,
    init p = Ok (Some e) p' ∧
    checkboxes e = [] ∧
    counter e = Some c ∧
    textContent p' c = Some "Ни одной записи не выбрано." ∧
    (existing_counter p = None →
     props p !! c = None ∧ props p' !! c = Some created_counter) ∧
    (select_all_of p f = None → selectAll e = None ∧ listeners p' = listeners p).
Proof.
  intros Hf Hsnap.
  destruct (init_shows p f Hf) as (c & p0 & Hinit & Hcase & Hin & Htext).
  cbn zeta in *. rewrite Hsnap in *.
  eexists _, _, c. split; [exact Hinit|].
  split; [done|]. split; [done|]. split; [exact Htext|].
  match goal with |- context [wire ?e ?q] =>
    destruct (wire_frame e q) as (_ & Hp & _) end.
  split.
  - intros Hnone. rewrite Hnone in Hcase. destruct Hcase as [Hc Hp0].
    rewrite Hc at 1. split; [apply fresh_handle_props|].
    rewrite Hp, Hp0, Hc. simpl. apply lookup_insert_eq.
  - intros Hsa. rewrite Hsa. split; [done|].
    rewrite wire_no_targets by done.
    destruct (existing_counter p); destruct Hcase as [_ ->]; done.
Qed.

Lemma init_without_checkboxes_witness :
  form_of page_empty = Some 1 ∧
  snapshot_of page_empty 1 = [] ∧
  ∃ e p' c,
    init page_empty = Ok (Some e) p' ∧
    checkboxes e = [] ∧
    counter e = Some c ∧
    textContent p' c = Some "Ни одной записи не выбрано." ∧
    (existing_counter page_empty = None →
     props page_empty !! c = None ∧ props p' !! c = Some created_counter) ∧
    (select_all_of page_empty 1 = None →
     selectAll e = None ∧ listeners p' = listeners page_empty).
Proof.
  assert (form_of page_empty = Some 1) as Hf by (vm_compute; reflexivity).
  assert (snapshot_of page_empty 1 = []) as Hs by (vm_compute; reflexivity).
  split; [exact Hf|]. split; [exact Hs|].
  exact (init_without_checkboxes page_empty 1 Hf Hs).
Defined.

(** ** The listeners the handler leaves, and what they do *)

Lemma listeners_of_listen h l p h' :
  listeners_of (listen h l p) h' =
  if decide (h' = h)
  then (if decide (l ∈ listeners_of p h) then listeners_of p h
        else listeners_of p h ++ [l])
  else listeners_of p h'.
Proof.
  unfold listen. case_bool_decide as Hin.
  - destruct (decide (h' = h)) as [->|]; [|done]. by rewrite decide_True.
  - unfold listeners_of at 1. simpl.
    destruct (decide (h' = h)) as [->|Hne].
    + rewrite lookup_insert_eq. by rewrite decide_False.
    + by rewrite lookup_insert_ne.
Qed.

Lemma listen_here h l p : l ∈ listeners_of (listen h l p) h.
Proof.
  rewrite listeners_of_listen, decide_True by done.
  destruct (decide (l ∈ listeners_of p h)); [done|].
  apply elem_of_app. right. left.
Qed.

Lemma listen_mono h l p h' l' :
  l' ∈ listeners_of p h' → l' ∈ listeners_of (listen h l p) h'.
Proof.
  intros Hin. rewrite listeners_of_listen.
  destruct (decide (h' = h)) as [->|]; [|done].
  destruct (decide (l ∈ listeners_of p h)); [done|].
  apply elem_of_app. by left.
Qed.

Lemma listen_inv h l p h' l' :
  l' ∈ listeners_of (listen h l p) h' → l' ∈ listeners_of p h' ∨ l' = l.
Proof.
  rewrite listeners_of_listen.
  destruct (decide (h' = h)) as [->|]; [|by left].
  destruct (decide (l ∈ listeners_of p h)); [by left|].
  intros [Hin | Hin%list_elem_of_singleton]%elem_of_app; [by left | by right].
Qed.

Lemma listen_all_mono hs l p h' l' :
  l' ∈ listeners_of p h' → l' ∈ listeners_of (listen_all hs l p) h'.
Proof.
  revert p. induction hs as [|h hs IH]; intros p Hin; [done|].
  unfold listen_all in *. cbn [foldl]. apply IH. by apply listen_mono.
Qed.

Lemma listen_all_here hs l p h : h ∈ hs → l ∈ listeners_of (listen_all hs l p) h.
Proof.
  revert p. induction hs as [|h' hs IH]; intros p Hin.
  - by apply elem_of_nil in Hin.
  - unfold listen_all in *. cbn [foldl].
    apply elem_of_cons in Hin as [->|Hin]; [|by apply IH].
    apply (listen_all_mono hs l). apply listen_here.
Qed.

Lemma listen_all_inv hs l p h' l' :
  l' ∈ listeners_of (listen_all hs l p) h' → l' ∈ listeners_of p h' ∨ l' = l.
Proof.
  revert p. induction hs as [|h hs IH]; intros p Hin; [by left|].
  unfold listen_all in *. cbn [foldl] in Hin.
  apply IH in Hin as [Hin | ->]; [|by right].
  by apply listen_inv in Hin.
Qed.

Lemma wire_wired e p : listeners p = ∅ → wired e (wire e p).
Proof.
  intros Hempty.
  assert (∀ h l, l ∈ listeners_of p h → False) as Hnone.
  { intros h l. unfold listeners_of. rewrite Hempty, lookup_empty. simpl.
    by intros ?%elem_of_nil. }
  unfold wire. split.
  - intros cb Hcb.
    assert (UpdateCounter e ∈
            listeners_of (listen_all (checkboxes e) (UpdateCounter e) p) cb)
      by (by apply listen_all_here).
    destruct (selectAll e); [by apply listen_mono | done].
  - intros h l Hl.
    assert (l ∈ listeners_of (listen_all (checkboxes e) (UpdateCounter e) p) h →
            own_listener e l) as Hcbs.
    { intros [Hin | ->]%listen_all_inv; [by destruct (Hnone h l) | by left]. }
    destruct (selectAll e) as [sa|] eqn:Hsa; [|by apply Hcbs].
    apply listen_inv in Hl as [Hl | ->]; [by apply Hcbs|].
    right. split; [done|]. rewrite Hsa. eauto.
Qed.

Lemma selectAllChange_Some e p sa c :
  selectAll e = Some sa →
  counter e = Some c →
  let p1 := checked_all (is_checked p sa) (checkboxes e) p in
  selectAllChange e p = Ok tt (write_text c (message (selected_count e p1)) p1).
Proof.
  intros Hsa Hc p1. unfold selectAllChange, bind.
  rewrite Hsa. cbn [get_checked]. rewrite forEach_set_checked.
  by rewrite (updateCounter_Some e _ c Hc).
Qed.

Lemma shown_write_text e c p :
  c ∈ elements_of (document p) →
  shown e c (write_text c (message (selected_count e p)) p).
Proof.
  intros Hin. split; [by apply elements_of_write_text|].
  by rewrite textContent_write_text.
Qed.

(** Each listener of this run returns and leaves the counter up to date. *)
Lemma call_own e c l p :
  counter e = Some c →
  c ∈ elements_of (document p) →
  own_listener e l →
  ∃ p', call l p = Ok tt p' ∧ listeners p' = listeners p ∧ shown e c p'.
Proof.
  intros Hc Hin [-> | [-> [sa Hsa]]]; simpl.
  - eexists. split; [by apply updateCounter_Some|].
    split; [done | by apply shown_write_text].
  - eexists. split; [by apply (selectAllChange_Some e p sa c)|].
    split; [done|]. by apply shown_write_text.
Qed.

Lemma calls_own e c ls p :
  counter e = Some c →
  c ∈ elements_of (document p) →
  Forall (own_listener e) ls →
  ∃ p', forEach ls call p = Ok tt p' ∧ listeners p' = listeners p ∧
        c ∈ elements_of (document p') ∧
        ((ls = [] ∧ p' = p) ∨ shown e c p').
Proof.
  intros Hc Hin Hls. revert p Hin.
  induction Hls as [|l ls Hl Hls IH]; intros p Hin.
  - exists p. repeat split; [done|]. by left.
  - destruct (call_own e c l p Hc Hin Hl) as (p1 & Hcall & Hl1 & Hs1).
    destruct (IH p1 (proj1 Hs1)) as (p' & Hrun & Hl' & Hin' & Hcase).
    exists p'. cbn [forEach]. unfold bind. rewrite Hcall, Hrun.
    split; [done|]. split; [congruence|]. split; [done|].
    right. destruct Hcase as [[_ ->] | Hs]; done.
Qed.

Lemma listeners_of_eq p q h : listeners q = listeners p → listeners_of q h = listeners_of p h.
Proof. unfold listeners_of. by intros ->. Qed.

(** A [change] event along a path returns; either no element of the path has
    a listener and the page is unchanged, or the counter is up to date. *)
Lemma dispatch_path e c hs p :
  counter e = Some c →
  c ∈ elements_of (document p) →
  (∀ h l, l ∈ listeners_of p h → own_listener e l) →
  ∃ p', forEach hs (λ h q, forEach (listeners_of q h) call q) p = Ok tt p' ∧
        listeners p' = listeners p ∧
        ((Forall (λ h, listeners_of p h = []) hs ∧ p' = p) ∨ shown e c p').
Proof.
  intros Hc. revert p. induction hs as [|h hs IH]; intros p Hin Hown.
  - exists p. repeat split. by left.
  - assert (Forall (own_listener e) (listeners_of p h)) as Hls.
    { apply Forall_forall. intros l Hl. by apply (Hown h). }
    destruct (calls_own e c _ p Hc Hin Hls) as (p1 & Hrun1 & Hl1 & Hin1 & Hcase1).
    destruct (IH p1 Hin1) as (p' & Hrun & Hl' & Hcase).
    { intros h' l. rewrite (listeners_of_eq p p1 h' Hl1). apply Hown. }
    exists p'. cbn [forEach]. unfold bind. rewrite Hrun1, Hrun.
    split; [done|]. split; [congruence|].
    destruct Hcase as [[Hquiet ->] | Hs]; [|by right].
    destruct Hcase1 as [[Hnil ->] | Hs1]; [|by right].
    left. split; [|done]. by constructor.
Qed.

Lemma is_checked_flip_other p t h :
  h ≠ t →
  is_checked (alter_props t (λ e, set_checked_of e (negb (checked e))) p) h =
  is_checked p h.
Proof.
  intros Hne. unfold is_checked. simpl. by rewrite lookup_alter_ne.
Qed.

Lemma selected_count_agree e p q :
  (∀ cb, cb ∈ checkboxes e → is_checked q cb = is_checked p cb) →
  selected_count e q = selected_count e p.
Proof.
  unfold selected_count. induction (checkboxes e) as [|cb cbs IH]; intros Hall.
  - done.
  - specialize (IH (λ x Hx, Hall x (list_elem_of_further _ _ _ Hx))).
    pose proof (Hall cb (list_elem_of_here _ _)) as Hcb.
    destruct (is_checked p cb) eqn:Hp.
    + rewrite !filter_cons_True by congruence. simpl. by rewrite IH.
    + rewrite !filter_cons_False by congruence. done.
Qed.

(** A toggle returns and keeps the listeners, and the counter stays up to
    date. *)
Lemma toggle_preserves e c t p :
  counter e = Some c →
  wired e p →
  shown e c p →
  ∃ p', toggle t p = Ok tt p' ∧ wired e p' ∧ shown e c p'.
Proof.
  intros Hc [Hcbs Hown] [Hin Htext]. unfold toggle, dispatch_change.
  set (q := alter_props t _ p).
  destruct (dispatch_path e c (t :: ancestors t (document q)) q Hc Hin Hown)
    as (p' & Hrun & Hl & Hcase).
  exists p'. split; [exact Hrun|]. split.
  { split.
    - intros cb Hcb. rewrite (listeners_of_eq q p' cb Hl). by apply Hcbs.
    - intros h l. rewrite (listeners_of_eq q p' h Hl). apply Hown. }
  destruct Hcase as [[Hquiet ->] | Hs]; [|done].
  split; [done|].
  assert (t ∉ checkboxes e) as Hnot.
  { intros Ht. apply Hcbs in Ht.
    apply Forall_cons in Hquiet as [Hnil _].
    change (listeners_of q t) with (listeners_of p t) in Hnil.
    rewrite Hnil in Ht. by apply elem_of_nil in Ht. }
  change (textContent q c) with (textContent p c). rewrite Htext.
  do 2 f_equal. symmetry. apply selected_count_agree.
  intros cb Hcb. apply is_checked_flip_other. intros ->. done.
Qed.

Lemma toggles_preserve e c ts p :
  counter e = Some c →
  wired e p →
  shown e c p →
  ∃ p', toggles ts p = Ok tt p' ∧ wired e p' ∧ shown e c p'.
Proof.
  intros Hc. revert p. induction ts as [|t ts IH]; intros p Hw Hs.
  - by exists p.
  - destruct (toggle_preserves e c t p Hc Hw Hs) as (p1 & Ht & Hw1 & Hs1).
    destruct (IH p1 Hw1 Hs1) as (p' & Hts & Hw' & Hs').
    exists p'. cbn [toggles]. unfold bind. by rewrite Ht.
Qed.

(** ** The counter follows the checkboxes *)

(** C6.  On a page with the form and no listener of another origin, the
    handler returns normally after exactly one assignment to a text, and the
    counter then shows the text of the three-way rule for the checked state
    of the snapshot.  From there every sequence of toggles, of snapshot
    checkboxes, of the select-all control or of any other element, runs
    without error and ends with the counter showing the text of the rule for
    the checked states at that moment. *)
Theorem counter_follows_checkboxes (p : page) (f : handle) :
  form_of p = Some f →
  listeners p = ∅ →
  ∃ e p0 c ms,
    init p = Ok (Some e) p0 ∧
    counter e = Some c ∧
    mutations p0 = mutations p ++ ms ∧
    text_writes ms = 1 ∧
    textContent p0 c = Some (message (selected_count e p0)) ∧
    ∀ targets, ∃ p',
      toggles targets p0 = Ok tt p' ∧
      textContent p' c = Some (message (selected_count e p')).
Proof.
  intros Hf Hempty.
  destruct (init_shows p f Hf) as (c & q & Hinit & Hcase & Hin & Htext).
  cbn zeta in *.
  set (e := Env (snapshot_of p f) (select_all_of p f) (Some c)) in *.
  set (m := message (selected_count e q)) in *.
  destruct (wire_frame e (write_text c m q)) as (Hd & Hp & ls & Hm & Hls).
  set (p0 := wire e (write_text c m q)) in *.
  assert (listeners q = ∅ ∧
          ∃ pre, mutations q = mutations p ++ pre ∧ text_writes pre = 0)
    as [Hlq (pre & Hpre & Hpre0)].
  { destruct (existing_counter p); destruct Hcase as [_ Hq]; rewrite Hq.
    - split; [done|]. exists []. by rewrite app_nil_r.
    - split; [done|]. eexists. split; [reflexivity | done]. }
  assert (wired e p0) as Hw by (by apply wire_wired).
  assert (shown e c p0) as Hs.
  { split; [|done]. rewrite Hd. by apply elements_of_write_text. }
  exists e, p0, c, (pre ++ MText c m :: ls).
  split; [done|]. split; [done|].
  split.
  { rewrite Hm. simpl. rewrite Hpre. by rewrite <- !app_assoc. }
  split.
  { rewrite text_writes_app, Hpre0.
    change (MText c m :: ls) with ([MText c m] ++ ls).
    rewrite text_writes_app, (text_writes_listen ls Hls). done. }
  split; [done|].
  intros targets.
  destruct (toggles_preserve e c targets p0 eq_refl Hw Hs) as (p' & Hr & _ & _ & Ht).
  by exists p'.
Qed.

Lemma counter_follows_checkboxes_witness :
  form_of page3 = Some 1 ∧
  listeners page3 = ∅ ∧
  ∃ e p0 c ms,
    init page3 = Ok (Some e) p0 ∧
    counter e = Some c ∧
    mutations p0 = mutations page3 ++ ms ∧
    text_writes ms = 1 ∧
    textContent p0 c = Some (message (selected_count e p0)) ∧
    ∀ targets, ∃ p',
      toggles targets p0 = Ok tt p' ∧
      textContent p' c = Some (message (selected_count e p')).
Proof.
  assert (form_of page3 = Some 1) as Hf by (vm_compute; reflexivity).
  split; [exact Hf|]. split; [reflexivity|].
  exact (counter_follows_checkboxes page3 1 Hf eq_refl).
Defined.

(** ** The scenario of the specification, run *)

Example scenario_start : snd <$> after [] page3 = Some "Ни одной записи не выбрано.".
Proof. vm_compute. reflexivity. Qed.

Example scenario_one :
  snd <$> after [3] page3 = Some "Выбрана 1 запись для включения в ТЗ.".
Proof. vm_compute. reflexivity. Qed.

Example scenario_two :
  snd <$> after [3; 2] page3 = Some "Выбрано 2 записей для включения в ТЗ.".
Proof. vm_compute. reflexivity. Qed.

Example scenario_all :
  snd <$> after [3; 2; 5] page3 = Some "Выбрано 3 записей для включения в ТЗ.".
Proof. vm_compute. reflexivity. Qed.

Example scenario_none :
  snd <$> after [3; 2; 5; 5] page3 = Some "Ни одной записи не выбрано.".
Proof. vm_compute. reflexivity. Qed.

Lemma updateCounter_three_way_witness :
  counter env3 = Some 6 ∧
  6 ∈ elements_of (document page3_one) ∧
  ∃ p', updateCounter env3 page3_one = Ok tt p' ∧
    let n := selected_count env3 page3_one in
    selected_count env3 p' = n ∧
    (n = 0 → textContent p' 6 = Some "Ни одной записи не выбрано.") ∧
    (n = 1 → textContent p' 6 = Some "Выбрана 1 запись для включения в ТЗ.") ∧
    (2 ≤ n → textContent p' 6 =
               Some ("Выбрано " +:+ decimal n +:+ " записей для включения в ТЗ.") ∧
             parse_decimal (decimal n) = Some n).
Proof.
  assert (6 ∈ elements_of (document page3_one)) as Hin.
  { apply find_node_is_Some. vm_compute. eauto. }
  split; [reflexivity|]. split; [exact Hin|].
  exact (updateCounter_three_way env3 page3_one 6 eq_refl Hin).
Defined.

Lemma updateCounter_idempotent_witness :
  updateCounter env3 page3_one =
    Ok tt (write_text 6 "Выбрана 1 запись для включения в ТЗ." page3_one) ∧
  ∃ p2, updateCounter env3
          (write_text 6 "Выбрана 1 запись для включения в ТЗ." page3_one) = Ok tt p2 ∧
    document p2 =
      document (write_text 6 "Выбрана 1 запись для включения в ТЗ." page3_one) ∧
    props p2 = props (write_text 6 "Выбрана 1 запись для включения в ТЗ." page3_one) ∧
    listeners p2 =
      listeners (write_text 6 "Выбрана 1 запись для включения в ТЗ." page3_one) ∧
    ∀ c, counter env3 = Some c →
         textContent p2 c =
         textContent (write_text 6 "Выбрана 1 запись для включения в ТЗ." page3_one) c.
Proof.
  assert (updateCounter env3 page3_one =
          Ok tt (write_text 6 "Выбрана 1 запись для включения в ТЗ." page3_one)) as H1.
  { rewrite (updateCounter_Some env3 page3_one 6 eq_refl).
    do 2 f_equal. }
  split; [exact H1|].
  exact (updateCounter_idempotent env3 page3_one _ H1).
Defined.

Lemma updateCounter_frame_witness :
  counter env3 = Some 6 ∧
  ∃ p' s, updateCounter env3 page3_one = Ok tt p' ∧
    mutations p' = mutations page3_one ++ [MText 6 s] ∧
    document p' = map (with_children 6 (text_kids s)) (document page3_one) ∧
    props p' = props page3_one ∧
    listeners p' = listeners page3_one ∧
    (∀ cb, cb ∈ checkboxes env3 → is_checked p' cb = is_checked page3_one cb) ∧
    (∀ sa, selectAll env3 = Some sa → is_checked p' sa = is_checked page3_one sa).
Proof.
  split; [reflexivity|].
  exact (updateCounter_frame env3 page3_one 6 eq_refl).
Defined.

Lemma selectAllChange_witness :
  selectAll env3 = Some 5 ∧
  counter env3 = Some 6 ∧
  Forall (λ cb, is_Some (props page3_one !! cb)) (checkboxes env3) ∧
  ∃ p', selectAllChange env3 page3_one = Ok tt p' ∧
    let v := is_checked page3_one 5 in
    (∀ cb, cb ∈ checkboxes env3 → is_checked p' cb = v) ∧
    mutations p' = mutations page3_one
                   ++ map (λ cb, MChecked cb v) (checkboxes env3)
                   ++ [MText 6 (message (selected_count env3 p'))] ∧
    text_writes (drop (length (mutations page3_one)) (mutations p')) = 1 ∧
    selected_count env3 p' = (if v then length (checkboxes env3) else 0).
Proof.
  assert (Forall (λ cb, is_Some (props page3_one !! cb)) (checkboxes env3)) as Hlive.
  { repeat constructor; vm_compute; eauto. }
  split; [reflexivity|]. split; [reflexivity|]. split; [exact Hlive|].
  exact (selectAllChange_sets_all_then_one_update env3 page3_one 5 6
           eq_refl eq_refl Hlive).
Defined.

(** ** The listeners of a run, exactly *)

Lemma listeners_of_listen_all hs l p h :
  listeners_of (listen_all hs l p) h =
  if decide (h ∈ hs)
  then (if decide (l ∈ listeners_of p h) then listeners_of p h
        else listeners_of p h ++ [l])
  else listeners_of p h.
Proof.
  revert p. induction hs as [|h0 hs IH]; intros p.
  - by rewrite decide_False by apply not_elem_of_nil.
  - unfold listen_all in *. cbn [foldl]. rewrite IH, !listeners_of_listen.
    destruct (decide (h = h0)) as [->|Hne].
    + rewrite (decide_True (P := h0 ∈ h0 :: hs)) by left.
      destruct (decide (l ∈ listeners_of p h0)) as [Hin|Hnin].
      * rewrite (decide_True (P := l ∈ listeners_of p h0)) by done.
        by destruct (decide (h0 ∈ hs)).
      * rewrite (decide_True (P := l ∈ listeners_of p h0 ++ [l]))
          by (apply elem_of_app; right; left).
        by destruct (decide (h0 ∈ hs)).
    + destruct (decide (h ∈ hs)) as [Hin|Hnin].
      * by rewrite (decide_True (P := h ∈ h0 :: hs)) by (by right).
      * rewrite (decide_False (P := h ∈ h0 :: hs)); [done|].
        rewrite not_elem_of_cons. done.
Qed.

Lemma wire_listeners_exact e p h :
  listeners p = ∅ → listeners_of (wire e p) h = own_listeners e h.
Proof.
  intros Hempty.
  assert (∀ h', listeners_of p h' = []) as Hnil.
  { intros h'. unfold listeners_of. by rewrite Hempty, lookup_empty. }
  assert (listeners_of (listen_all (checkboxes e) (UpdateCounter e) p) h =
          if bool_decide (h ∈ checkboxes e) then [UpdateCounter e] else []) as Hcbs.
  { rewrite listeners_of_listen_all, Hnil.
    rewrite (decide_False (P := UpdateCounter e ∈ [])) by apply not_elem_of_nil.
    by destruct (decide (h ∈ checkboxes e));
      [rewrite bool_decide_eq_true_2 | rewrite bool_decide_eq_false_2]. }
  unfold wire, own_listeners. destruct (selectAll e) as [sa|].
  - rewrite listeners_of_listen.
    destruct (decide (h = sa)) as [->|Hne].
    + rewrite Hcbs, (bool_decide_eq_true_2 (Some sa = Some sa)) by done.
      rewrite decide_False; [done|].
      case_bool_decide; [|apply not_elem_of_nil].
      rewrite list_elem_of_singleton. discriminate.
    + rewrite Hcbs, (bool_decide_eq_false_2 (Some sa = Some h)) by congruence.
      by rewrite app_nil_r.
  - rewrite Hcbs, (bool_decide_eq_false_2 (None = Some h)) by done.
    by rewrite app_nil_r.
Qed.

Lemma own_listeners_own e h l : l ∈ own_listeners e h → own_listener e l.
Proof.
  unfold own_listeners. intros [Hl | Hl]%elem_of_app.
  - case_bool_decide; [|by apply elem_of_nil in Hl].
    apply list_elem_of_singleton in Hl. by left.
  - case_bool_decide as Hsa; [|by apply elem_of_nil in Hl].
    apply list_elem_of_singleton in Hl. right. split; [done|]. rewrite Hsa. eauto.
Qed.

Lemma ready_wired e c p : ready e c p → wired e p.
Proof.
  intros (_ & _ & Hls & _). split.
  - intros cb Hcb. rewrite Hls. unfold own_listeners.
    rewrite bool_decide_eq_true_2 by done. apply elem_of_app. left. left.
  - intros h l. rewrite Hls. apply own_listeners_own.
Qed.

(** ** The listeners' effect, in closed form *)

Lemma call_own_listeners e c h q :
  counter e = Some c →
  forEach (own_listeners e h) call q = Ok tt (after_listeners e c q h).
Proof.
  intros Hc. unfold own_listeners, after_listeners.
  destruct (bool_decide (h ∈ checkboxes e));
    destruct (bool_decide (selectAll e = Some h)) eqn:Hsa;
    cbn [app forEach call]; unfold bind, ret.
  - rewrite (updateCounter_Some e q c Hc). fold (after_update e c q).
    apply bool_decide_eq_true_1 in Hsa.
    by rewrite (selectAllChange_Some e _ h c Hsa Hc).
  - by rewrite (updateCounter_Some e q c Hc).
  - apply bool_decide_eq_true_1 in Hsa.
    by rewrite (selectAllChange_Some e _ h c Hsa Hc).
  - done.
Qed.

Lemma after_listeners_listeners e c q h :
  listeners (after_listeners e c q h) = listeners q.
Proof.
  unfold after_listeners.
  by destruct (bool_decide (h ∈ checkboxes e)), (bool_decide (selectAll e = Some h)).
Qed.

Lemma after_path_listeners e c hs q : listeners (after_path e c hs q) = listeners q.
Proof.
  revert q. induction hs as [|h hs IH]; intros q; [done|].
  unfold after_path in *. cbn [foldl]. by rewrite IH, after_listeners_listeners.
Qed.

Lemma after_listeners_props e c q h :
  props (after_listeners e c q h) =
  if bool_decide (selectAll e = Some h)
  then check_all (is_checked q h) (checkboxes e) (props q)
  else props q.
Proof.
  unfold after_listeners.
  by destruct (bool_decide (h ∈ checkboxes e)), (bool_decide (selectAll e = Some h)).
Qed.

(** A [change] event along a path, on a page with exactly the listeners of
    this run. *)
Lemma dispatch_exact e c hs p :
  counter e = Some c →
  (∀ h, listeners_of p h = own_listeners e h) →
  forEach hs (λ h q, forEach (listeners_of q h) call q) p =
  Ok tt (after_path e c hs p).
Proof.
  intros Hc. revert p. induction hs as [|h hs IH]; intros p Hls; [done|].
  cbn [forEach]. unfold bind. rewrite Hls, (call_own_listeners e c h p Hc).
  unfold after_path. cbn [foldl]. apply IH.
  intros h'. rewrite <- Hls.
  apply listeners_of_eq, after_listeners_listeners.
Qed.

Lemma toggle_exact e c t p :
  counter e = Some c →
  (∀ h, listeners_of p h = own_listeners e h) →
  toggle t p = Ok tt (after_path e c (t :: ancestors t (document p)) (flip t p)).
Proof.
  intros Hc Hls. unfold toggle, dispatch_change. fold (flip t p).
  by apply dispatch_exact.
Qed.

(** ** Pages reached by the handler and toggles are ready *)

Lemma check_all_live v cbs (m : gmap handle element) h :
  is_Some (check_all v cbs m !! h) ↔ is_Some (m !! h).
Proof.
  rewrite check_all_lookup. destruct (decide (h ∈ cbs)); [|done].
  apply fmap_is_Some.
Qed.

Lemma after_listeners_live e c q h x :
  is_Some (props (after_listeners e c q h) !! x) ↔ is_Some (props q !! x).
Proof.
  rewrite after_listeners_props. case_bool_decide; [|done]. apply check_all_live.
Qed.

Lemma after_path_live e c hs q x :
  is_Some (props (after_path e c hs q) !! x) ↔ is_Some (props q !! x).
Proof.
  revert q. induction hs as [|h hs IH]; intros q; [done|].
  unfold after_path in *. cbn [foldl]. rewrite IH. apply after_listeners_live.
Qed.

Lemma flip_live t p x : is_Some (props (flip t p) !! x) ↔ is_Some (props p !! x).
Proof.
  unfold flip. simpl. rewrite lookup_alter.
  destruct (decide (t = x)) as [->|]; [|done]. apply fmap_is_Some.
Qed.

(** What the handler captured, read off the page it ran on. *)
Lemma init_env p e p0 :
  init p = Ok (Some e) p0 →
  ∃ f c, form_of p = Some f ∧
         e = Env (snapshot_of p f) (select_all_of p f) (Some c).
Proof.
  intros Hinit. destruct (form_of p) as [f|] eqn:Hf.
  - destruct (init_shows p f Hf) as (c & q & Hrun & _). cbn zeta in Hrun.
    rewrite Hrun in Hinit. injection Hinit as <- _. by exists f, c.
  - rewrite (init_absent p Hf) in Hinit. discriminate Hinit.
Qed.

Lemma init_ready p e p0 :
  init p = Ok (Some e) p0 → listeners p = ∅ → ∃ c, ready e c p0.
Proof.
  intros Hinit Hempty. destruct (form_of p) as [f|] eqn:Hf.
  2:{ rewrite (init_absent p Hf) in Hinit. discriminate Hinit. }
  destruct (init_shows p f Hf) as (c & q & Hrun & Hcase & Hin & Htext).
  cbn zeta in *. rewrite Hrun in Hinit. injection Hinit as <- <-.
  set (e := Env (snapshot_of p f) (select_all_of p f) (Some c)) in *.
  set (m := message (selected_count e q)) in *.
  destruct (wire_frame e (write_text c m q)) as (Hd & Hp & _).
  assert (listeners q = ∅ ∧ ∀ x, is_Some (props p !! x) → is_Some (props q !! x))
    as [Hlq Hlive].
  { destruct (existing_counter p); destruct Hcase as [_ Hq]; rewrite Hq.
    - done.
    - split; [done|]. intros x Hx. simpl.
      rewrite lookup_insert_is_Some. destruct (decide (fresh_handle p = x)); eauto. }
  exists c. split; [done|]. split.
  { split; [|done]. rewrite Hd. by apply elements_of_write_text. }
  split; [intros h; by apply wire_listeners_exact|].
  split.
  - eapply Forall_impl; [apply (snapshot_live p f)|].
    intros cb Hcb. rewrite Hp. by apply Hlive.
  - intros sa Hsa. rewrite Hp. apply Hlive.
    apply first_match_Some in Hsa as [_ Hm]. by apply (matches_live p sel_select_all).
Qed.

Lemma toggle_ready e c t p :
  ready e c p →
  toggle t p = Ok tt (after_path e c (t :: ancestors t (document p)) (flip t p)) ∧
  ready e c (after_path e c (t :: ancestors t (document p)) (flip t p)).
Proof.
  intros Hr. pose proof Hr as (Hc & Hs & Hls & Hcbs & Hsa).
  pose proof (toggle_exact e c t p Hc Hls) as Hrun.
  split; [done|].
  destruct (toggle_preserves e c t p Hc (ready_wired e c p Hr) Hs)
    as (p' & Hrun' & _ & Hs').
  rewrite Hrun in Hrun'. injection Hrun' as <-.
  split; [done|]. split; [done|]. split.
  { intros h. rewrite <- Hls. apply listeners_of_eq.
    by rewrite after_path_listeners. }
  split.
  - eapply Forall_impl; [exact Hcbs|]. intros cb Hcb. simpl in Hcb.
    by apply after_path_live, flip_live.
  - intros sa Hsa'. by apply after_path_live, flip_live, Hsa.
Qed.

Lemma toggles_ready e c ts p p1 :
  ready e c p → toggles ts p = Ok tt p1 → ready e c p1.
Proof.
  revert p. induction ts as [|t ts IH]; intros p Hr Hrun.
  - injection Hrun as <-. done.
  - cbn [toggles] in Hrun. unfold bind in Hrun.
    destruct (toggle_ready e c t p Hr) as [Ht Hr']. rewrite Ht in Hrun.
    by apply (IH _ Hr').
Qed.

Lemma reached_ready p e p1 :
  listeners p = ∅ → reached p e p1 → ∃ c, ready e c p1.
Proof.
  intros Hempty (p0 & ts & Hinit & Hts).
  destruct (init_ready p e p0 Hinit Hempty) as [c Hr].
  exists c. by apply (toggles_ready e c ts p0).
Qed.

(** ** Which listeners there are *)

(** X1.  On a page that had no listeners, after the handler and any toggles,
    the listeners of an element are exactly: [updateCounter], once, if the
    element is in the snapshot, followed by the select-all listener if the
    element is the select-all control; every other element has none.  The
    snapshot and the control are those the handler looked up in the form. *)
Theorem listeners_exactly_own (p : page) (e : env) (p1 : page) :
  listeners p = ∅ →
  reached p e p1 →
  (∃ f, form_of p = Some f ∧
        checkboxes e = snapshot_of p f ∧ selectAll e = select_all_of p f) ∧
  ∀ h, listeners_of p1 h =
       (if bool_decide (h ∈ checkboxes e) then [UpdateCounter e] else []) ++
       (if bool_decide (selectAll e = Some h) then [SelectAllChange e] else []).
Proof.
  intros Hempty Hreach. split.
  - destruct Hreach as (p0 & ts & Hinit & _).
    destruct (init_env p e p0 Hinit) as (f & c & Hf & ->). by exists f.
  - destruct (reached_ready p e p1 Hempty Hreach) as (c & _ & _ & Hls & _).
    exact Hls.
Qed.

Lemma reached_page3_one : reached page3 env3 page3_one.
Proof.
  eexists _, [3]. split; vm_compute; reflexivity.
Qed.

Lemma listeners_exactly_own_witness :
  listeners page3 = ∅ ∧
  reached page3 env3 page3_one ∧
  (∃ f, form_of page3 = Some f ∧
        checkboxes env3 = snapshot_of page3 f ∧
        selectAll env3 = select_all_of page3 f) ∧
  ∀ h, listeners_of page3_one h =
       (if bool_decide (h ∈ checkboxes env3) then [UpdateCounter env3] else []) ++
       (if bool_decide (selectAll env3 = Some h) then [SelectAllChange env3] else []).
Proof.
  split; [reflexivity|]. split; [exact reached_page3_one|].
  exact (listeners_exactly_own page3 env3 page3_one eq_refl reached_page3_one).
Defined.

(** ** Toggles of elements outside the snapshot *)

Lemma after_path_quiet e c hs q :
  Forall (λ h, (h ∉ checkboxes e) ∧ selectAll e ≠ Some h) hs →
  after_path e c hs q = q.
Proof.
  revert q. induction hs as [|h hs IH]; intros q Hq; [done|].
  apply Forall_cons in Hq as [[Hcb Hsa] Hq].
  unfold after_path in *. cbn [foldl]. unfold after_listeners at 2.
  rewrite !bool_decide_eq_false_2 by done. by apply IH.
Qed.

Lemma selected_count_flip_outside e t p :
  t ∉ checkboxes e → selected_count e (flip t p) = selected_count e p.
Proof.
  intros Ht. apply selected_count_agree. intros cb Hcb.
  apply is_checked_flip_other. by intros ->.
Qed.

(** X4.  The snapshot is fixed: a toggle of an element that is neither in the
    snapshot nor the select-all control, and has none of them above it, runs
    no listener.  The page is left as the flip left it: nothing is written,
    the count of the snapshot and the counter text stay. *)
Theorem toggle_outside_snapshot (p : page) (e : env) (p1 : page) (t : handle) :
  listeners p = ∅ →
  reached p e p1 →
  Forall (λ h, (h ∉ checkboxes e) ∧ selectAll e ≠ Some h)
         (t :: ancestors t (document p1)) →
  toggle t p1 = Ok tt (flip t p1) ∧
  mutations (flip t p1) = mutations p1 ∧
  selected_count e (flip t p1) = selected_count e p1 ∧
  ∀ c, counter e = Some c →
       textContent (flip t p1) c = Some (message (selected_count e p1)).
Proof.
  intros Hempty Hreach Hpath.
  destruct (reached_ready p e p1 Hempty Hreach) as (c & Hc & [_ Htext] & Hls & _).
  split.
  { rewrite (toggle_exact e c t p1 Hc Hls). by rewrite after_path_quiet. }
  split; [done|].
  apply Forall_cons in Hpath as [[Ht _] _].
  split; [by apply selected_count_flip_outside|].
  intros c' Hc'. rewrite Hc in Hc'. injection Hc' as <-. exact Htext.
Qed.

Lemma toggle_outside_snapshot_witness :
  listeners page3 = ∅ ∧
  reached page3 env3 page3_one ∧
  Forall (λ h, (h ∉ checkboxes env3) ∧ selectAll env3 ≠ Some h)
         (1 :: ancestors 1 (document page3_one)) ∧
  toggle 1 page3_one = Ok tt (flip 1 page3_one) ∧
  mutations (flip 1 page3_one) = mutations page3_one ∧
  selected_count env3 (flip 1 page3_one) = selected_count env3 page3_one ∧
  ∀ c, counter env3 = Some c →
       textContent (flip 1 page3_one) c =
       Some (message (selected_count env3 page3_one)).
Proof.
  assert (Forall (λ h, (h ∉ checkboxes env3) ∧ selectAll env3 ≠ Some h)
            (1 :: ancestors 1 (document page3_one))) as Hpath.
  { apply (bool_decide_unpack _). vm_compute. exact I. }
  split; [reflexivity|]. split; [exact reached_page3_one|]. split; [exact Hpath|].
  exact (toggle_outside_snapshot page3 env3 page3_one 1 eq_refl
           reached_page3_one Hpath).
Defined.

(** ** The elements below an element *)

(** Equal lists up to the bracketing of [++] and [::]. *)
Ltac list_assoc :=
  repeat (rewrite <- app_assoc || rewrite <- app_comm_cons); reflexivity.

(** The elements of a forest, split at the first occurrence of [c]; rewriting
    the children of [c] keeps what comes before [c]. *)
Lemma elements_split c ns n :
  find_node c ns = Some n →
  ∃ l1 l2,
    elements_of ns = l1 ++ c :: elements_of (children n) ++ l2 ∧
    (c ∉ l1) ∧
    ∀ g, ∃ l2', elements_of (map (with_children c g) ns) =
                l1 ++ c :: elements_of (g (children n)) ++ l2'.
Proof.
  revert n.
  induction ns as [|s ns IH|h kids ns IHk IHn] using forest_ind; intros n.
  - by rewrite find_node_nil.
  - rewrite find_node_text. intros Hn.
    destruct (IH n Hn) as (l1 & l2 & Hel & Hnot & Hg).
    exists l1, l2. rewrite elements_of_text. split; [done|]. split; [done|].
    intros g. destruct (Hg g) as [l2' Hl2']. exists l2'.
    simpl. by rewrite elements_of_text.
  - rewrite find_node_elem. destruct (decide (h = c)) as [->|Hne].
    + intros [= <-]. exists [], (elements_of ns).
      rewrite elements_of_elem. split; [done|].
      split; [apply not_elem_of_nil|].
      intros g. exists (elements_of (map (with_children c g) ns)).
      simpl. rewrite decide_True by done. by rewrite elements_of_elem.
    + destruct (find_node c kids) as [k|] eqn:Hk.
      * intros [= <-].
        destruct (IHk k eq_refl) as (l1 & l2 & Hel & Hnot & Hg).
        exists (h :: l1), (l2 ++ elements_of ns).
        rewrite elements_of_elem, Hel. split.
        { list_assoc. }
        split; [by apply not_elem_of_cons|].
        intros g. destruct (Hg g) as [l2' Hl2'].
        exists (l2' ++ elements_of (map (with_children c g) ns)).
        simpl. rewrite decide_False by done.
        rewrite elements_of_elem, Hl2'. list_assoc.
      * intros Hn. apply find_node_None in Hk.
        destruct (IHn n Hn) as (l1 & l2 & Hel & Hnot & Hg).
        exists (h :: elements_of kids ++ l1), l2.
        rewrite elements_of_elem, Hel. split.
        { list_assoc. }
        split.
        { rewrite not_elem_of_cons, not_elem_of_app. by intuition. }
        intros g. destruct (Hg g) as [l2' Hl2']. exists l2'.
        simpl. rewrite decide_False by done.
        rewrite elements_of_elem, (with_children_absent c g kids Hk), Hl2'.
        list_assoc.
Qed.

Lemma descendants_NoDup h ns : NoDup (elements_of ns) → NoDup (descendants h ns).
Proof.
  intros Hnd. unfold descendants.
  destruct (find_node h ns) as [n|] eqn:Hn; [|constructor].
  destruct (elements_split h ns n Hn) as (l1 & l2 & Hel & _).
  rewrite Hel in Hnd.
  apply NoDup_app in Hnd as (_ & _ & Hnd).
  apply NoDup_cons in Hnd as [_ Hnd].
  by apply NoDup_app in Hnd as (Hnd & _).
Qed.

Lemma snapshot_NoDup p f :
  NoDup (elements_of (document p)) → NoDup (snapshot_of p f).
Proof.
  intros Hnd. unfold snapshot_of, all_matches.
  by apply NoDup_filter, descendants_NoDup.
Qed.

(** ** A toggle of one checkbox of the snapshot *)

Lemma after_path_props_plain e c hs q :
  Forall (λ h, selectAll e ≠ Some h) hs →
  props (after_path e c hs q) = props q.
Proof.
  revert q. induction hs as [|h hs IH]; intros q Hq; [done|].
  apply Forall_cons in Hq as [Hsa Hq].
  unfold after_path in *. cbn [foldl]. rewrite (IH _ Hq).
  rewrite after_listeners_props. by rewrite bool_decide_eq_false_2.
Qed.

Lemma is_checked_flip t p :
  is_Some (props p !! t) → is_checked (flip t p) t = negb (is_checked p t).
Proof.
  intros [el Hel]. unfold is_checked, flip. simpl.
  by rewrite lookup_alter_eq, Hel.
Qed.

(** Flipping one element of a duplicate-free list moves the count of the
    checked ones by one. *)
Lemma count_flip (chk chk' : handle → bool) t l :
  NoDup l → t ∈ l →
  chk' t = negb (chk t) →
  (∀ h, h ≠ t → chk' h = chk h) →
  (if chk t
   then S (length (filter (λ h, chk' h = true) l)) =
        length (filter (λ h, chk h = true) l)
   else length (filter (λ h, chk' h = true) l) =
        S (length (filter (λ h, chk h = true) l))).
Proof.
  intros Hnd Hin Ht Hother.
  assert (∀ l' : list handle,
            t ∉ l' → filter (λ h, chk' h = true) l' =
                     filter (λ h, chk h = true) l') as Hsame.
  { intros l' Hnot. induction l' as [|x l' IH]; [done|].
    apply not_elem_of_cons in Hnot as [Hx Hnot].
    rewrite !filter_cons, (Hother x) by done. rewrite IH by done. done. }
  induction Hnd as [|x l Hx Hnd IH]; [by apply elem_of_nil in Hin|].
  rewrite !filter_cons.
  destruct (decide (x = t)) as [->|Hne].
  - rewrite (Hsame l Hx), Ht. by destruct (chk t).
  - apply elem_of_cons in Hin as [->|Hin]; [done|].
    specialize (IH Hin). rewrite (Hother x Hne).
    destruct (chk t), (decide (chk x = true)); simpl; by rewrite IH.
Qed.

(** X2.  On a page whose elements occur once each, a toggle of a snapshot
    checkbox that has no select-all control on its event path returns
    normally, flips that checkbox and no other element, moves the count by
    exactly one (down if it was checked, up if not), and leaves the counter
    showing the text for the new count. *)
Theorem toggle_snapshot_checkbox (p : page) (e : env) (p1 : page) (t : handle) :
  listeners p = ∅ →
  reached p e p1 →
  NoDup (elements_of (document p)) →
  t ∈ checkboxes e →
  Forall (λ h, selectAll e ≠ Some h) (t :: ancestors t (document p1)) →
  ∃ p2 c,
    toggle t p1 = Ok tt p2 ∧
    counter e = Some c ∧
    is_checked p2 t = negb (is_checked p1 t) ∧
    (∀ h, h ≠ t → is_checked p2 h = is_checked p1 h) ∧
    (if is_checked p1 t
     then S (selected_count e p2) = selected_count e p1
     else selected_count e p2 = S (selected_count e p1)) ∧
    textContent p2 c = Some (message (selected_count e p2)).
Proof.
  intros Hempty Hreach Hnd Ht Hpath.
  destruct (reached_ready p e p1 Hempty Hreach) as (c & Hr).
  destruct (toggle_ready e c t p1 Hr) as [Hrun (_ & [_ Htext] & _)].
  destruct Hr as (Hc & _ & _ & Hlive & _).
  set (p2 := after_path e c (t :: ancestors t (document p1)) (flip t p1)) in *.
  assert (props p2 = props (flip t p1)) as Hprops
    by (by apply after_path_props_plain).
  assert (∀ h, is_checked p2 h = is_checked (flip t p1) h) as Hchk
    by (intros h; unfold is_checked; by rewrite Hprops).
  assert (is_Some (props p1 !! t)) as Htlive
    by (rewrite Forall_forall in Hlive; by apply Hlive).
  assert (NoDup (checkboxes e)) as Hnd'.
  { destruct Hreach as (p0 & ts & Hinit & _).
    destruct (init_env p e p0 Hinit) as (f & c' & _ & ->).
    by apply snapshot_NoDup. }
  exists p2, c. split; [done|]. split; [done|].
  split; [by rewrite Hchk, is_checked_flip|].
  split; [intros h Hh; rewrite Hchk; by apply is_checked_flip_other|].
  split; [|done].
  apply (count_flip (is_checked p1) (is_checked p2) t (checkboxes e)); try done.
  - by rewrite Hchk, is_checked_flip.
  - intros h Hh. rewrite Hchk. by apply is_checked_flip_other.
Qed.

Lemma toggle_snapshot_checkbox_witness :
  listeners page3 = ∅ ∧
  reached page3 env3 page3_one ∧
  NoDup (elements_of (document page3)) ∧
  3 ∈ checkboxes env3 ∧
  Forall (λ h, selectAll env3 ≠ Some h) (3 :: ancestors 3 (document page3_one)) ∧
  ∃ p2 c,
    toggle 3 page3_one = Ok tt p2 ∧
    counter env3 = Some c ∧
    is_checked p2 3 = negb (is_checked page3_one 3) ∧
    (∀ h, h ≠ 3 → is_checked p2 h = is_checked page3_one h) ∧
    (if is_checked page3_one 3
     then S (selected_count env3 p2) = selected_count env3 page3_one
     else selected_count env3 p2 = S (selected_count env3 page3_one)) ∧
    textContent p2 c = Some (message (selected_count env3 p2)).
Proof.
  assert (NoDup (elements_of (document page3))) as Hnd
    by (apply (bool_decide_unpack _); vm_compute; exact I).
  assert (3 ∈ checkboxes env3) as Hin
    by (apply (bool_decide_unpack _); vm_compute; exact I).
  assert (Forall (λ h, selectAll env3 ≠ Some h)
            (3 :: ancestors 3 (document page3_one))) as Hpath
    by (apply (bool_decide_unpack _); vm_compute; exact I).
  split; [reflexivity|]. split; [exact reached_page3_one|].
  split; [exact Hnd|]. split; [exact Hin|]. split; [exact Hpath|].
  exact (toggle_snapshot_checkbox page3 env3 page3_one 3 eq_refl
           reached_page3_one Hnd Hin Hpath).
Defined.

(** ** A toggle of the select-all control *)

Lemma is_checked_after_listeners e c q h x :
  (x ∈ checkboxes e → is_Some (props q !! x)) →
  is_checked (after_listeners e c q h) x =
  if bool_decide (selectAll e = Some h ∧ x ∈ checkboxes e)
  then is_checked q h else is_checked q x.
Proof.
  intros Hlive. unfold is_checked at 1. rewrite after_listeners_props.
  destruct (decide (selectAll e = Some h)) as [Hsa|Hsa].
  - rewrite bool_decide_eq_true_2 by done. rewrite check_all_lookup.
    destruct (decide (x ∈ checkboxes e)) as [Hx|Hx].
    + rewrite bool_decide_eq_true_2 by done.
      destruct (Hlive Hx) as [el ->]. done.
    + rewrite (bool_decide_eq_false_2 (_ ∧ _)) by tauto. done.
  - rewrite bool_decide_eq_false_2 by done.
    rewrite (bool_decide_eq_false_2 (_ ∧ _)) by tauto. done.
Qed.

(** Once the select-all listener has run with the value [v], every later
    listener of the run keeps all snapshot checkboxes at [v]. *)
Lemma after_path_all_set e c sa v (base : page) hs q :
  selectAll e = Some sa →
  let set_to (r : page) :=
    is_checked r sa = v ∧
    (∀ cb, cb ∈ checkboxes e → is_Some (props r !! cb)) ∧
    (∀ h, h ∉ checkboxes e → h ≠ sa → is_checked r h = is_checked base h) in
  (set_to q ∧ (hs = [] ∨ head hs = Some sa ∨
               ∀ cb, cb ∈ checkboxes e → is_checked q cb = v)) →
  set_to (after_path e c hs q) ∧
  (hs = [] ∨ ∀ cb, cb ∈ checkboxes e → is_checked (after_path e c hs q) cb = v).
Proof.
  intros Hsa set_to. revert q.
  induction hs as [|h hs IH]; intros q [Hq Hfirst].
  - split; [done | by left].
  - unfold after_path in *. cbn [foldl].
    destruct Hq as (Hv & Hlive & Hrest).
    assert (∀ x, is_checked (after_listeners e c q h) x =
                 if bool_decide (selectAll e = Some h ∧ x ∈ checkboxes e)
                 then is_checked q h else is_checked q x) as Hstep.
    { intros x. apply is_checked_after_listeners, Hlive. }
    assert (set_to (after_listeners e c q h)) as Hq'.
    { split; [|split].
      - rewrite Hstep. case_bool_decide as Hcase; [|done].
        destruct Hcase as [Hh _]. rewrite Hsa in Hh. by injection Hh as <-.
      - intros cb Hcb. by apply after_listeners_live, Hlive.
      - intros x Hx Hne. rewrite Hstep.
        rewrite bool_decide_eq_false_2 by tauto. by apply Hrest. }
    assert (∀ cb, cb ∈ checkboxes e →
                  is_checked (after_listeners e c q h) cb = v) as Hall.
    { intros cb Hcb. rewrite Hstep.
      destruct Hfirst as [Hnil | [Hhead | Hbefore]]; [done | |].
      - injection Hhead as ->. by rewrite bool_decide_eq_true_2.
      - case_bool_decide as Hcase; [|by apply Hbefore].
        destruct Hcase as [Hh _]. rewrite Hsa in Hh. by injection Hh as <-. }
    destruct (IH (after_listeners e c q h)) as [Hfin Hfin'].
    { split; [done|]. by right; right. }
    split; [done|]. right.
    destruct Hfin' as [-> | Hfin']; [done | done].
Qed.

(** X3.  A toggle of the select-all control returns normally; with [v] the
    checked state the control takes, the control has [v], every checkbox of
    the snapshot has [v], no other element changes its checked state, and
    the counter shows the text for all of the snapshot when [v] is true and
    the "none" sentence when it is false. *)
Theorem toggle_select_all (p : page) (e : env) (p1 : page) (sa : handle) :
  listeners p = ∅ →
  reached p e p1 →
  selectAll e = Some sa →
  ∃ p2 c,
    toggle sa p1 = Ok tt p2 ∧
    counter e = Some c ∧
    let v := negb (is_checked p1 sa) in
    is_checked p2 sa = v ∧
    (∀ cb, cb ∈ checkboxes e → is_checked p2 cb = v) ∧
    (∀ h, h ∉ checkboxes e → h ≠ sa → is_checked p2 h = is_checked p1 h) ∧
    textContent p2 c =
      Some (message (if v then length (checkboxes e) else 0)).
Proof.
  intros Hempty Hreach Hsa.
  destruct (reached_ready p e p1 Hempty Hreach) as (c & Hr).
  destruct (toggle_ready e c sa p1 Hr) as [Hrun (_ & [_ Htext] & _)].
  destruct Hr as (Hc & _ & _ & Hlive & Hsalive).
  set (p2 := after_path e c (sa :: ancestors sa (document p1)) (flip sa p1)) in *.
  destruct (after_path_all_set e c sa (negb (is_checked p1 sa)) p1
              (sa :: ancestors sa (document p1)) (flip sa p1) Hsa)
    as [(Hv & _ & Hrest) Hall].
  { split; [|by right; left].
    split; [by apply is_checked_flip, Hsalive|]. split.
    - intros cb Hcb. apply flip_live. rewrite Forall_forall in Hlive. by apply Hlive.
    - intros h _ Hne. by apply is_checked_flip_other. }
  destruct Hall as [Hnil | Hall]; [discriminate Hnil|].
  fold p2 in Hv, Hrest, Hall.
  exists p2, c. split; [done|]. split; [done|]. cbn zeta.
  split; [done|]. split; [done|]. split; [done|].
  by rewrite Htext, (selected_count_uniform e p2 _ Hall).
Qed.

Lemma toggle_select_all_witness :
  listeners page3 = ∅ ∧
  reached page3 env3 page3_one ∧
  selectAll env3 = Some 5 ∧
  ∃ p2 c,
    toggle 5 page3_one = Ok tt p2 ∧
    counter env3 = Some c ∧
    let v := negb (is_checked page3_one 5) in
    is_checked p2 5 = v ∧
    (∀ cb, cb ∈ checkboxes env3 → is_checked p2 cb = v) ∧
    (∀ h, h ∉ checkboxes env3 → h ≠ 5 → is_checked p2 h = is_checked page3_one h) ∧
    textContent p2 c =
      Some (message (if v then length (checkboxes env3) else 0)).
Proof.
  split; [reflexivity|]. split; [exact reached_page3_one|]. split; [reflexivity|].
  exact (toggle_select_all page3 env3 page3_one 5 eq_refl reached_page3_one eq_refl).
Defined.

(** ** What the snapshot holds *)





(** ** The counter after the handler *)

Lemma matches_props p q sel h : props q = props p → matches q sel h = matches p sel h.
Proof. unfold matches. by intros ->. Qed.

Lemma first_match_props p q sel hs :
  props q = props p → first_match q sel hs = first_match p sel hs.
Proof.
  intros Hp. unfold first_match, all_matches. f_equal.
  apply list_filter_iff. intros h. by rewrite (matches_props p q sel h Hp).
Qed.

(** The first match does not depend on what follows it. *)
Lemma first_match_prefix p sel c l1 l2 l2' :
  c ∉ l1 →
  first_match p sel (l1 ++ c :: l2) = Some c →
  first_match p sel (l1 ++ c :: l2') = Some c.
Proof.
  unfold first_match, all_matches.
  induction l1 as [|x l1 IH]; intros Hnot Hfirst.
  - assert (matches p sel c = true) as Hm
      by (by apply (first_match_Some p sel (c :: l2))).
    simpl. by rewrite filter_cons_True by (by apply Is_true_true).
  - apply not_elem_of_cons in Hnot as [Hne Hnot]. simpl in *.
    destruct (matches p sel x) eqn:Hx.
    + rewrite filter_cons_True in Hfirst by (by apply Is_true_true).
      simpl in Hfirst. congruence.
    + rewrite filter_cons_False in Hfirst by (rewrite Hx; exact id).
      rewrite filter_cons_False by (rewrite Hx; exact id). by apply IH.
Qed.

(** The only match of a list is its first match. *)
Lemma first_match_only p sel c hs :
  c ∈ hs → matches p sel c = true →
  (∀ x, x ∈ hs → x ≠ c → matches p sel x = false) →
  first_match p sel hs = Some c.
Proof.
  unfold first_match, all_matches.
  induction hs as [|x hs IH]; intros Hin Hc Hothers.
  - by apply elem_of_nil in Hin.
  - destruct (decide (x = c)) as [->|Hne].
    + by rewrite filter_cons_True by (by apply Is_true_true).
    + rewrite filter_cons_False.
      * apply IH; [|done|].
        -- apply elem_of_cons in Hin as [->|Hin]; done.
        -- intros y Hy. apply Hothers. by right.
      * rewrite (Hothers x) by (done || left). exact id.
Qed.

Lemma elements_appended_subset f n ns x :
  x ∈ elements_of (map (with_children f (λ ks, ks ++ [n])) ns) →
  x ∈ elements_of ns ∨ x ∈ elements_of [n].
Proof.
  induction ns as [|s ns IH|h kids ns IHk IHn] using forest_ind.
  - by left.
  - simpl. by rewrite !elements_of_text.
  - simpl. destruct (decide (h = f)) as [->|Hne].
    + rewrite !elements_of_elem, elements_of_app, !elem_of_cons, !elem_of_app.
      intros [-> | [[Hk | Hn'] | Hrest]]; [by left; left | by left; right; left
                                          | by right |].
      destruct (IHn Hrest) as [?|?]; [left; right; by right | by right].
    + rewrite !elements_of_elem, !elem_of_cons, !elem_of_app.
      intros [-> | [Hk | Hrest]]; [by left; left | |].
      * destruct (IHk Hk) as [?|?]; [left; right; by left | by right].
      * destruct (IHn Hrest) as [?|?]; [left; right; by right | by right].
Qed.

Lemma existing_counter_after_write q p1 c g :
  existing_counter q = Some c →
  props p1 = props q →
  document p1 = map (with_children c g) (document q) →
  existing_counter p1 = Some c.
Proof.
  intros Hc Hp Hd. unfold existing_counter in *.
  rewrite (first_match_props q p1 _ _ Hp), Hd.
  assert (c ∈ elements_of (document q)) as Hin
    by (by apply first_match_Some in Hc as [? _]).
  apply find_node_is_Some in Hin as [n Hn].
  destruct (elements_split c (document q) n Hn) as (l1 & l2 & Hel & Hnot & Hg).
  destruct (Hg g) as [l2' ->]. rewrite Hel in Hc.
  by apply (first_match_prefix q sel_counter c l1 _ _ Hnot Hc).
Qed.

Lemma existing_counter_created p f :
  f ∈ elements_of (document p) →
  existing_counter p = None →
  existing_counter (create_counter f p) = Some (fresh_handle p).
Proof.
  intros Hf Hnone. unfold existing_counter in *.
  apply first_match_only.
  - simpl. apply appended_in_document; [done|]. rewrite elements_of_elem. left.
  - unfold matches. simpl. by rewrite lookup_insert_eq.
  - intros x Hx Hne. simpl in Hx.
    apply elements_appended_subset in Hx as [Hx | Hx].
    + unfold matches. simpl. rewrite lookup_insert_ne by done.
      by apply (proj1 (first_match_None p sel_counter _) Hnone).
    + rewrite elements_of_elem, elements_of_nil in Hx.
      apply list_elem_of_singleton in Hx. done.
Qed.

(** X5.  After the handler, [document.querySelector(".selected-count")] is
    the handler's counter.  So a second run of the handler on the page the
    first left builds no element: it returns normally, the element store is
    unchanged, and if it gets past line 6 its counter is the counter of the
    first run. *)
Theorem init_again_finds_counter (p : page) (e : env) (p1 : page) :
  init p = Ok (Some e) p1 →
  existing_counter p1 = counter e ∧
  ∃ r2 p2,
    init p1 = Ok r2 p2 ∧
    props p2 = props p1 ∧
    ∀ e2, r2 = Some e2 → counter e2 = counter e.
Proof.
  intros Hinit.
  destruct (init_env p e p1 Hinit) as (f & c & Hf & He).
  destruct (init_shows p f Hf) as (c' & q & Hrun & Hcase & _).
  cbn zeta in Hrun. rewrite Hrun in Hinit. injection Hinit as He' <-.
  rewrite He in He'. injection He' as ->.
  set (m := message _) in *.
  set (e1 := Env (snapshot_of p f) (select_all_of p f) (Some c)) in *.
  destruct (wire_frame e1 (write_text c m q)) as (Hd & Hp & _).
  assert (existing_counter q = Some c) as Hq.
  { destruct (existing_counter p) as [c0|] eqn:Hc0; destruct Hcase as [-> ->].
    - done.
    - apply existing_counter_created; [by apply form_of_in_document | done]. }
  assert (existing_counter (wire e1 (write_text c m q)) = Some c) as Hc1.
  { by apply (existing_counter_after_write q _ c (text_kids m)). }
  rewrite He. split; [done|].
  destruct (form_of (wire e1 (write_text c m q))) as [f1|] eqn:Hf1.
  - eexists _, _. split; [by apply (init_found _ f1 c)|].
    split; [|by intros e2 [= <-]].
    match goal with |- props (wire ?e' ?q') = _ =>
      by destruct (wire_frame e' q') as (_ & -> & _) end.
  - eexists None, _. split; [by apply init_absent|]. by split.
Qed.

Lemma init_again_finds_counter_witness :
  init page3 = Ok (Some env3) page3_init ∧
  existing_counter page3_init = counter env3 ∧
  ∃ r2 p2,
    init page3_init = Ok r2 p2 ∧
    props p2 = props page3_init ∧
    ∀ e2, r2 = Some e2 → counter e2 = counter env3.
Proof.
  assert (init page3 = Ok (Some env3) page3_init) as Hinit
    by (vm_compute; reflexivity).
  split; [exact Hinit | exact (init_again_finds_counter page3 env3 page3_init Hinit)].
Defined.

(** ** Toggling twice *)

Lemma flip_flip_props t p : props (flip t (flip t p)) = props p.
Proof.
  unfold flip. simpl. rewrite alter_alter_eq. apply map_eq. intros i.
  rewrite lookup_alter. destruct (decide (t = i)) as [->|]; [|done].
  destruct (props p !! i) as [[tag a b st]|]; [|done].
  simpl. unfold set_checked_of. simpl. by rewrite negb_involutive.
Qed.

(** X7.  Two toggles of the same element, neither with the select-all control
    on its event path, restore the page: both return normally, every element
    has the properties, hence the checked state, it had before, and the
    counter shows the text it showed before. *)
Theorem toggle_twice (p : page) (e : env) (p1 p2 : page) (t : handle) :
  listeners p = ∅ →
  reached p e p1 →
  Forall (λ h, selectAll e ≠ Some h) (t :: ancestors t (document p1)) →
  toggle t p1 = Ok tt p2 →
  Forall (λ h, selectAll e ≠ Some h) (t :: ancestors t (document p2)) →
  ∃ p3,
    toggle t p2 = Ok tt p3 ∧
    props p3 = props p1 ∧
    ∀ c, counter e = Some c → textContent p3 c = textContent p1 c.
Proof.
  intros Hempty Hreach Hpath1 Hrun1 Hpath2.
  destruct (reached_ready p e p1 Hempty Hreach) as (c & Hr1).
  destruct (toggle_ready e c t p1 Hr1) as [Hrun1' Hr2].
  assert (after_path e c (t :: ancestors t (document p1)) (flip t p1) = p2)
    as Hp2 by congruence.
  rewrite Hp2 in Hr2.
  destruct (toggle_ready e c t p2 Hr2) as [Hrun2 Hr3].
  set (p3 := after_path e c (t :: ancestors t (document p2)) (flip t p2)) in *.
  assert (props p3 = props p1) as Hprops.
  { unfold p3. rewrite after_path_props_plain by done.
    assert (props p2 = props (flip t p1)) as Hp2'.
    { rewrite <- Hp2. by apply after_path_props_plain. }
    assert (props (flip t p2) = props (flip t (flip t p1))) as ->.
    { unfold flip. simpl. by rewrite Hp2'. }
    apply flip_flip_props. }
  exists p3. split; [done|]. split; [done|].
  intros c' Hc'. destruct Hr1 as (Hc & [_ Ht1] & _), Hr3 as (_ & [_ Ht3] & _).
  rewrite Hc in Hc'. injection Hc' as <-.
  by rewrite Ht1, Ht3, (selected_count_props e p1 p3 Hprops).
Qed.

Lemma toggle_twice_witness :
  listeners page3 = ∅ ∧
  reached page3 env3 page3_init ∧
  Forall (λ h, selectAll env3 ≠ Some h) (3 :: ancestors 3 (document page3_init)) ∧
  toggle 3 page3_init = Ok tt page3_one ∧
  Forall (λ h, selectAll env3 ≠ Some h) (3 :: ancestors 3 (document page3_one)) ∧
  ∃ p3,
    toggle 3 page3_one = Ok tt p3 ∧
    props p3 = props page3_init ∧
    ∀ c, counter env3 = Some c → textContent p3 c = textContent page3_init c.
Proof.
  assert (reached page3 env3 page3_init) as Hreach
    by (eexists _, []; split; vm_compute; reflexivity).
  assert (Forall (λ h, selectAll env3 ≠ Some h)
            (3 :: ancestors 3 (document page3_init))) as Hpath1
    by (apply (bool_decide_unpack _); vm_compute; exact I).
  assert (toggle 3 page3_init = Ok tt page3_one) as Hrun
    by (vm_compute; reflexivity).
  assert (Forall (λ h, selectAll env3 ≠ Some h)
            (3 :: ancestors 3 (document page3_one))) as Hpath2
    by (apply (bool_decide_unpack _); vm_compute; exact I).
  split; [reflexivity|]. split; [exact Hreach|]. split; [exact Hpath1|].
  split; [exact Hrun|]. split; [exact Hpath2|].
  exact (toggle_twice page3 env3 page3_init page3_one 3 eq_refl
           Hreach Hpath1 Hrun Hpath2).
Defined.

(** ** The handler never throws *)

(** X8.  The handler returns normally on every page, whatever is present or
    missing; it leaves at line 6, with the page untouched, exactly when no
    element carries the class [history-form]. *)
Theorem init_never_throws (p : page) :
  ∃ r p', init p = Ok r p' ∧
          (r = None ↔ form_of p = None) ∧
          (r = None → p' = p).
Proof.
  destruct (form_of p) as [f|] eqn:Hf.
  - destruct (init_shows p f Hf) as (c & q & Hrun & _). cbn zeta in Hrun.
    eexists _, _. split; [exact Hrun|]. by split.
  - exists None, p. split; [by apply init_absent|]. by split.
Qed.

(** ** What no event changes *)

Lemma with_children_const_const c (g g0 : list node) ns :
  map (with_children c (λ _, g)) (map (with_children c (λ _, g0)) ns) =
  map (with_children c (λ _, g)) ns.
Proof.
  induction ns as [|s ns IH|h' kids ns IHk IHn] using forest_ind.
  - done.
  - simpl. by rewrite IH.
  - simpl. destruct (decide (h' = c)) as [->|Hne]; simpl.
    + rewrite decide_True by done. by rewrite IHn.
    + rewrite decide_False by done. by rewrite IHk, IHn.
Qed.

Lemma written_write c base d s :
  written c base d → written c base (map (with_children c (text_kids s)) d).
Proof.
  intros [-> | [s0 ->]]; right; exists s; [done|].
  exact (with_children_const_const c (text_kids s []) (text_kids s0 []) base).
Qed.

Lemma written_after_listeners e c base q h :
  written c base (document q) →
  written c base (document (after_listeners e c q h)).
Proof.
  intros Hw. unfold after_listeners.
  destruct (bool_decide (h ∈ checkboxes e)), (bool_decide (selectAll e = Some h));
    simpl; repeat apply written_write; done.
Qed.

Lemma written_after_path e c base hs q :
  written c base (document q) →
  written c base (document (after_path e c hs q)).
Proof.
  revert q. induction hs as [|h hs IH]; intros q Hw; [done|].
  unfold after_path in *. cbn [foldl]. by apply IH, written_after_listeners.
Qed.

Lemma static_after_listeners e c q h x :
  static <$> props (after_listeners e c q h) !! x = static <$> props q !! x.
Proof.
  rewrite after_listeners_props. case_bool_decide; [|done].
  rewrite check_all_lookup. destruct (decide (x ∈ checkboxes e)); [|done].
  by destruct (props q !! x).
Qed.

Lemma static_after_path e c hs q x :
  static <$> props (after_path e c hs q) !! x = static <$> props q !! x.
Proof.
  revert q. induction hs as [|h hs IH]; intros q; [done|].
  unfold after_path in *. cbn [foldl]. by rewrite IH, static_after_listeners.
Qed.

Lemma static_flip t p x :
  static <$> props (flip t p) !! x = static <$> props p !! x.
Proof.
  unfold flip. simpl. rewrite lookup_alter.
  destruct (decide (t = x)) as [->|]; [|done]. by destruct (props p !! x).
Qed.

Lemma toggles_frame e c ts p0 p1 :
  ready e c p0 →
  toggles ts p0 = Ok tt p1 →
  written c (document p0) (document p1) ∧
  listeners p1 = listeners p0 ∧
  ∀ h, static <$> props p1 !! h = static <$> props p0 !! h.
Proof.
  intros Hr0.
  enough (∀ q, ready e c q →
               written c (document p0) (document q) →
               listeners q = listeners p0 →
               (∀ h, static <$> props q !! h = static <$> props p0 !! h) →
               toggles ts q = Ok tt p1 →
               written c (document p0) (document p1) ∧
               listeners p1 = listeners p0 ∧
               ∀ h, static <$> props p1 !! h = static <$> props p0 !! h) as Hgen.
  { apply Hgen; [done | by left | done | done]. }
  induction ts as [|t ts IH]; intros q Hr Hw Hl Hst Hrun.
  - injection Hrun as <-. done.
  - cbn [toggles] in Hrun. unfold bind in Hrun.
    destruct (toggle_ready e c t q Hr) as [Ht Hr']. rewrite Ht in Hrun.
    apply (IH _ Hr'); [| |  | done].
    + by apply written_after_path.
    + by rewrite after_path_listeners.
    + intros h. by rewrite static_after_path, static_flip.
Qed.

(** The page the handler leaves is unchanged by writing the counter text
    again. *)
Lemma init_document p e p0 c :
  init p = Ok (Some e) p0 →
  counter e = Some c →
  document p0 =
    map (with_children c (text_kids (message (selected_count e p0)))) (document p0).
Proof.
  intros Hinit Hc.
  destruct (init_env p e p0 Hinit) as (f & c' & Hf & He).
  destruct (init_shows p f Hf) as (c'' & q & Hrun & _). cbn zeta in Hrun.
  rewrite Hrun in Hinit. injection Hinit as He' Hp0.
  rewrite He in He'. injection He' as ->.
  rewrite He in Hc. injection Hc as ->. rewrite <- He in Hp0.
  destruct (wire_frame e (write_text c (message (selected_count e q)) q))
    as (Hd & Hp & _).
  rewrite Hp0 in Hd, Hp.
  rewrite (selected_count_props e q p0) by done.
  rewrite Hd. simpl. symmetry.
  exact (with_children_const_twice c
           (text_kids (message (selected_count e q)) []) (document q)).
Qed.

(** X9.  After the handler, no sequence of toggles changes anything but
    checked states and the counter text: the document is the one the handler
    left, with the children of the counter replaced by the current text; the
    listeners are those the handler left; and every element keeps its tag,
    its attributes and its inline style, and no element appears or
    disappears. *)
Theorem toggles_change_only_checked_and_text
    (p : page) (e : env) (p0 p1 : page) (ts : list handle) :
  listeners p = ∅ →
  init p = Ok (Some e) p0 →
  toggles ts p0 = Ok tt p1 →
  ∃ c, counter e = Some c ∧
    document p1 =
      map (with_children c (text_kids (message (selected_count e p1)))) (document p0) ∧
    listeners p1 = listeners p0 ∧
    ∀ h, static <$> props p1 !! h = static <$> props p0 !! h.
Proof.
  intros Hempty Hinit Hrun.
  destruct (init_ready p e p0 Hinit Hempty) as [c Hr0].
  destruct (toggles_frame e c ts p0 p1 Hr0 Hrun) as (Hw & Hl & Hst).
  pose proof (toggles_ready e c ts p0 p1 Hr0 Hrun) as (Hc & [Hin1 Ht1] & _).
  destruct Hr0 as (_ & [Hin0 Ht0] & _).
  exists c. split; [done|]. split; [|done].
  destruct Hw as [Hsame | [s Hd]].
  - assert (message (selected_count e p1) = message (selected_count e p0)) as ->.
    { unfold textContent in Ht1. rewrite Hsame in Ht1.
      unfold textContent in Ht0. congruence. }
    rewrite Hsame. by apply (init_document p).
  - apply find_node_is_Some in Hin0 as [n0 Hn0].
    unfold textContent in Ht1. rewrite Hd in Ht1.
    rewrite (find_node_with_children _ _ _ _ Hn0) in Ht1.
    cbn [fmap option_fmap option_map] in Ht1.
    rewrite (text_of_text_kids c s) in Ht1. injection Ht1 as Ht1.
    by rewrite <- Ht1.
Qed.

Lemma toggles_change_only_checked_and_text_witness :
  listeners page3 = ∅ ∧
  init page3 = Ok (Some env3) page3_init ∧
  toggles [3] page3_init = Ok tt page3_one ∧
  ∃ c, counter env3 = Some c ∧
    document page3_one =
      map (with_children c (text_kids (message (selected_count env3 page3_one))))
          (document page3_init) ∧
    listeners page3_one = listeners page3_init ∧
    ∀ h, static <$> props page3_one !! h = static <$> props page3_init !! h.
Proof.
  assert (init page3 = Ok (Some env3) page3_init) as Hinit
    by (vm_compute; reflexivity).
  assert (toggles [3] page3_init = Ok tt page3_one) as Hrun
    by (vm_compute; reflexivity).
  split; [reflexivity|]. split; [exact Hinit|]. split; [exact Hrun|].
  exact (toggles_change_only_checked_and_text page3 env3 page3_init page3_one [3]
           eq_refl Hinit Hrun).
Defined.
